(** * Task-management frontend: a shallow embedding of its client logic

  The development follows the TypeScript sources:
  - [Pagination]: the page-number window of [components/task-list.tsx];
  - [Js], [Http], [Async]: the fragment of the JavaScript runtime the API
    clients rely on (truthiness, JSON values, [fetch], promises that
    resolve or reject), with every observable effect recorded in a trace;
  - [TasksApi], [AttachmentsApi], [Auth]: the functions of
    [lib/api/tasks.ts] and [lib/api/attachments.ts], and [userRegister];
  - [ProjectNav]: the duplicate filter of the project navigation;
  - [TaskAttachments]: [canPreviewType] and the upload, delete and
    preview handlers of [components/task-attachments.tsx], as
    transitions of the component's React state;
  - [ApiLayer]: the resource functions as one family, to state what
    holds of all of them.

  JavaScript numbers that hold page counts, sizes and HTTP statuses are
  integers in every use made of them here and are modelled by [Z]. *)

From stdpp Require Import base decidable option list list_numbers strings pretty gmap.
From Stdlib Require Import ZArith Lia.

#[local] Set Warnings "-register-all,-clear-no-such-hyp".

Local Open Scope Z_scope.

(** ** Pagination window ([task-list.tsx], lines 255-308) *)
Module Pagination.

(** An element of the [pageNumbers] array: a page number or the string
    ["..."]. *)
Inductive PageEntry : Type :=
| PageNum (i : Z)
| Dots.

#[global] Instance PageEntry_eq_dec : EqDecision PageEntry.
Proof. solve_decision. Defined.

(** [Math.ceil(total / pageSize)] on integers, [pageSize] not zero. *)
Definition ceilDiv (total pageSize : Z) : Z := - ((- total) / pageSize).

(** One iteration of the [for] loop: what is pushed for index [i]. *)
Definition pushEntry (page totalPages : Z)
    (pageNumbers : list PageEntry) (i : Z) : list PageEntry :=
  if (i =? 1) || (i =? totalPages) || ((page - 2 <=? i) && (i <=? page + 2))
  then pageNumbers ++ [PageNum i]
  else if ((i =? page - 3) && (1 <? page - 3))
          || ((i =? page + 3) && (page + 3 <? totalPages))
  then pageNumbers ++ [Dots]
  else pageNumbers.

(** [for (let i = 1; i <= totalPages; i++)] over the empty array. *)
Definition pageNumbers (page pageSize total : Z) : list PageEntry :=
  let totalPages := ceilDiv total pageSize in
  foldl (pushEntry page totalPages) [] (seqZ 1 totalPages).

(** What the callback of [pageNumbers.map] returns for a non-null item. *)
Inductive Rendered : Type :=
| EllipsisItem (idx : nat)                 (* key "ellipsis-" + idx *)
| LinkItem (num : Z) (isActive : bool).    (* key num, label num *)

(** [pageNumbers.map((num, idx) => ...)] with the captured mutable flag
    [lastWasEllipsis]; [None] is the [null] the callback returns for a
    repeated ellipsis. *)
Fixpoint mapEntries (page : Z) (lastWasEllipsis : bool) (idx : nat)
    (entries : list PageEntry) : list (option Rendered) :=
  match entries with
  | [] => []
  | Dots :: rest =>
      (if lastWasEllipsis then None else Some (EllipsisItem idx))
        :: mapEntries page true (S idx) rest
  | PageNum num :: rest =>
      Some (LinkItem num (num =? page)) :: mapEntries page false (S idx) rest
  end.

(** The children React displays: [null] entries render nothing. *)
Definition renderedItems (page pageSize total : Z) : list Rendered :=
  omap id (mapEntries page false 0 (pageNumbers page pageSize total)).

(** What an item shows: a page number or the ellipsis marker. *)
Definition shown (r : Rendered) : PageEntry :=
  match r with
  | EllipsisItem _ => Dots
  | LinkItem num _ => PageNum num
  end.

(** The page-number window: the sequence of numbers and markers on screen. *)
Definition pageWindow (page pageSize total : Z) : list PageEntry :=
  shown <$> renderedItems page pageSize total.

(** The pagination bar is rendered only when [total > pageSize] and an
    [onPageChange] callback was passed. *)
Definition paginationBar (page pageSize total : Z) (onPageChange : bool)
    : option (list PageEntry) :=
  if (pageSize <? total) && onPageChange
  then Some (pageWindow page pageSize total)
  else None.

(** Inputs the component is meant for: a positive page size, more rows
    than one page holds, and a current page that exists. *)
Definition validInput (page pageSize total : Z) : Prop :=
  1 <= pageSize /\ pageSize < total /\ 1 <= page <= ceilDiv total pageSize.

(** How many times an entry occurs in a window. *)
Definition occurrences (e : PageEntry) (w : list PageEntry) : nat :=
  length (filter (fun x => x = e) w).

(** No two neighbours of the list are both ellipsis markers. *)
Definition noAdjacentDots (w : list PageEntry) : Prop :=
  forall k : nat, ~ (w !! k = Some Dots /\ w !! S k = Some Dots).

End Pagination.

(** ** The JavaScript values the clients handle *)
Module Js.

(** A parsed JSON document.  Numbers are the integral ones (sizes,
    counts); object fields are kept in document order with unique keys. *)
Inductive JSON : Type :=
| JNull
| JBool (b : bool)
| JNum (n : Z)
| JStr (s : string)
| JArr (items : list JSON)
| JObj (fields : list (string * JSON)).

(** A value that may be [undefined] ([None]). *)
Definition Value : Type := option JSON.

(** Truthiness of a string: only the empty string is falsy. *)
Definition truthyString (s : string) : bool :=
  match s with
  | EmptyString => false
  | String _ _ => true
  end.

(** [!token] is false exactly for a present, non-empty string. *)
Definition truthyToken (token : option string) : bool :=
  match token with
  | Some s => truthyString s
  | None => false
  end.

(** Truthiness of a JSON value and of a possibly undefined one. *)
Definition truthyJSON (v : JSON) : bool :=
  match v with
  | JNull => false
  | JBool b => b
  | JNum n => negb (n =? 0)
  | JStr s => truthyString s
  | JArr _ | JObj _ => true
  end.

Definition truthy (v : Value) : bool :=
  match v with
  | Some j => truthyJSON j
  | None => false
  end.

(** First binding of [k] in an object's field list. *)
Fixpoint lookupField (k : string) (fields : list (string * JSON)) : Value :=
  match fields with
  | [] => None
  | (k', v) :: rest => if String.eqb k k' then Some v else lookupField k rest
  end.

(** [v.k] for a value [v] that is neither [null] nor [undefined]: own
    properties of objects; primitives and arrays have no such property
    (the keys read here are [error], [url], [gcsFileName], never
    [length]). *)
Definition getProp (v : JSON) (k : string) : Value :=
  match v with
  | JObj fields => lookupField k fields
  | _ => None
  end.

(** [v?.k]: [undefined] when [v] is [null] or [undefined]. *)
Definition optChain (v : Value) (k : string) : Value :=
  match v with
  | None | Some JNull => None
  | Some j => getProp j k
  end.

(** Joining the string forms of array elements with a comma. *)
Fixpoint joinComma (parts : list string) : string :=
  match parts with
  | [] => ""
  | [p] => p
  | p :: rest => p +:+ "," +:+ joinComma rest
  end.

(** [String(v)] / template-literal conversion of a JSON value. *)
Fixpoint toStringJSON (v : JSON) : string :=
  match v with
  | JNull => "null"
  | JBool true => "true"
  | JBool false => "false"
  | JNum n => pretty n
  | JStr s => s
  | JArr items =>
      joinComma (map (fun x => match x with
                               | JNull => ""
                               | _ => toStringJSON x
                               end) items)
  | JObj _ => "[object Object]"
  end.

Definition toStringValue (v : Value) : string :=
  match v with
  | Some j => toStringJSON j
  | None => "undefined"
  end.

(** An object literal handed to [JSON.stringify]: fields whose value is
    [undefined] are not serialised. *)
Definition objectLiteral (fields : list (string * Value)) : JSON :=
  JObj (omap (fun kv => match kv.2 with
                        | Some v => Some (kv.1, v)
                        | None => None
                        end) fields).

(** Exceptions: [Error] objects made by the code and the two kinds the
    engine raises here. *)
Inductive ExnKind : Type := KError | KSyntaxError | KTypeError.

Record Exn : Type := mkExn { kind : ExnKind; message : string }.

Definition Error (msg : string) : Exn := mkExn KError msg.

(** The double-quote character. *)
Definition dquote : string := String (Ascii.ascii_of_nat 34) EmptyString.

(** [s] starts with [pre], as a statement. *)
Definition startsWith (s pre : string) : Prop :=
  exists rest : string, s = pre +:+ rest.

(** [s.includes(sub)]. *)
Definition includes (s sub : string) : Prop :=
  exists pre post : string, s = pre +:+ sub +:+ post.

End Js.

(** ** Requests, responses and the recorded effects *)
Module Http.
Import Js.

(** A browser [File]: name, MIME type, size in bytes. *)
Record File : Type := mkFile { name : string; type : string; size : Z }.

Inductive FormValue : Type :=
| FormString (s : string)
| FormFile (f : File).

(** A [FormData]: its entries in insertion order. *)
Definition FormData : Type := list (string * FormValue).

Definition formHas (k : string) (fd : FormData) : bool :=
  existsb (fun kv => String.eqb k kv.1) fd.

Inductive Body : Type :=
| JsonText (v : JSON)          (* JSON.stringify(v) *)
| FormBody (fd : FormData)
| FileBody (f : File).

(** The arguments of one [fetch] call. *)
Record Request : Type := mkRequest {
  url : string;
  method : string;
  headers : list (string * string);
  body : option Body;
  credentials : option string
}.

(** A [Response]: [bodyJson] is the value its body text parses to, [None]
    when the text is not valid JSON. *)
Record Response : Type := mkResponse {
  status : Z;
  statusText : string;
  bodyText : string;
  bodyJson : option JSON
}.

(** [response.ok]: status in the range 200-299. *)
Definition ok (r : Response) : bool :=
  (200 <=? status r) && (status r <=? 299).

(** How a [fetch] promise settles. *)
Inductive FetchResult : Type :=
| Responded (r : Response)
| Failed (e : Exn).

Inductive ToastKind : Type := ToastError | ToastSuccess | ToastInfo.

(** Observable effects, in the order they happen. *)
Inductive Event : Type :=
| EvGetServerSession
| EvFetch (req : Request) (res : FetchResult)
| EvResponseJson (r : Response)        (* response.json() *)
| EvResponseText (r : Response)        (* response.text() *)
| EvJsonParse (text : string)          (* JSON.parse(text) *)
| EvConsoleError (msg : string)
| EvToast (k : ToastKind) (msg : string).

Definition Trace : Type := list Event.

Definition isFetch (ev : Event) : bool :=
  match ev with EvFetch _ _ => true | _ => false end.

(** An attempt to read the body as JSON, by either route. *)
Definition isJsonParse (ev : Event) : bool :=
  match ev with
  | EvResponseJson _ | EvJsonParse _ => true
  | _ => false
  end.

Definition isSessionLookup (ev : Event) : bool :=
  match ev with EvGetServerSession => true | _ => false end.

(** The requests of a trace, in order. *)
Definition requestsOf (tr : Trace) : list Request :=
  omap (fun ev => match ev with
                  | EvFetch req _ => Some req
                  | _ => None
                  end) tr.

(** Some request of the trace was answered with status [code]. *)
Definition answeredWith (code : Z) (tr : Trace) : Prop :=
  exists (req : Request) (r : Response),
    EvFetch req (Responded r) ∈ tr /\ status r = code.

(** Every request among the events uses method [m]. *)
Definition onlyMethod (m : string) (evs : Trace) : Prop :=
  Forall (fun ev => match ev with
                    | EvFetch req _ => method req = m
                    | _ => True
                    end) evs.

(** Nothing in the trace tried to read a body as JSON. *)
Definition noJsonParse (tr : Trace) : Prop :=
  Forall (fun ev => isJsonParse ev = false) tr.

(** The session object of the authentication framework. *)
Record User : Type := mkUser { token : option string }.
Record Session : Type := mkSession { user : option User }.

(** [session?.user?.token]. *)
Definition sessionToken (s : option Session) : option string :=
  match s with
  | Some s' => match user s' with
               | Some u => token u
               | None => None
               end
  | None => None
  end.

(** Everything outside the program: the environment variable, the
    ambient session, the network (which may answer according to what
    happened before) and the texts of the exceptions the engine raises. *)
Record Env : Type := mkEnv {
  NEXT_PUBLIC_API_URL : option string;
  session : option Session;
  network : Trace -> Request -> FetchResult;
  parseErrorMessage : string -> string;   (* SyntaxError text for a body *)
  typeErrorMessage : string -> string;    (* TypeError text for a failed read *)
  encodeURIComponentForm : string -> string  (* URLSearchParams encoding *)
}.

(** [process.env.NEXT_PUBLIC_API_URL || "http://localhost:5000/api/v1"]. *)
Definition API_URL (env : Env) : string :=
  match NEXT_PUBLIC_API_URL env with
  | Some s => if truthyString s then s else "http://localhost:5000/api/v1"
  | None => "http://localhost:5000/api/v1"
  end.

End Http.

(** ** Asynchronous computations: promises that settle, over a trace *)
Module Async.
Import Js Http.

(** How an [async] function's promise settles. *)
Inductive Completion (A : Type) : Type :=
| Fulfilled (a : A)
| Rejected (e : Exn).
Arguments Fulfilled {A} a.
Arguments Rejected {A} e.

(** An [async] computation reads the environment, extends the trace of
    effects and settles. *)
Definition Async (A : Type) : Type := Env -> Trace -> Completion A * Trace.

Definition resolve {A : Type} (a : A) : Async A :=
  fun _ tr => (Fulfilled a, tr).

(** [throw e], or a rejected promise. *)
Definition throw {A : Type} (e : Exn) : Async A :=
  fun _ tr => (Rejected e, tr).

(** [const x = await m; k x]. *)
Definition await {A B : Type} (m : Async A) (k : A -> Async B) : Async B :=
  fun env tr =>
    match m env tr with
    | (Fulfilled a, tr') => k a env tr'
    | (Rejected e, tr') => (Rejected e, tr')
    end.

#[global] Instance Async_ret : MRet Async := @resolve.
#[global] Instance Async_bind : MBind Async :=
  fun A B k m => await m k.

(** [return f(await m)]. *)
Definition map {A B : Type} (f : A -> B) (m : Async A) : Async B :=
  await m (fun a => resolve (f a)).

(** [try { body } catch (err) { handler err }]. *)
Definition tryCatch {A : Type} (body : Async A) (handler : Exn -> Async A)
    : Async A :=
  fun env tr =>
    match body env tr with
    | (Fulfilled a, tr') => (Fulfilled a, tr')
    | (Rejected e, tr') => handler e env tr'
    end.

(** [try { body } finally { fin }]: [fin] always runs; a rejection of
    [fin] replaces the outcome of [body]. *)
Definition tryFinally {A : Type} (body : Async A) (fin : Async unit)
    : Async A :=
  fun env tr =>
    match body env tr with
    | (c, tr') =>
        match fin env tr' with
        | (Fulfilled _, tr'') => (c, tr'')
        | (Rejected e, tr'') => (Rejected e, tr'')
        end
    end.

Definition emit (ev : Event) : Async unit :=
  fun _ tr => (Fulfilled tt, tr ++ [ev]).

Definition getEnv : Async Env :=
  fun env tr => (Fulfilled env, tr).

(** [await getServerSession(authOptions)]. *)
Definition getServerSession : Async (option Session) :=
  fun env tr => (Fulfilled (session env), tr ++ [EvGetServerSession]).

(** [await fetch(url, init)]: the network answers knowing what happened
    so far; the call and its answer are recorded. *)
Definition fetch (req : Request) : Async Response :=
  fun env tr =>
    let res := network env tr req in
    (match res with
     | Responded r => Fulfilled r
     | Failed e => Rejected e
     end, tr ++ [EvFetch req res]).

(** [await response.json()]: rejects with a [SyntaxError] on a body that
    is not JSON. *)
Definition responseJson (r : Response) : Async JSON :=
  fun env tr =>
    (match bodyJson r with
     | Some j => Fulfilled j
     | None => Rejected (mkExn KSyntaxError (parseErrorMessage env (bodyText r)))
     end, tr ++ [EvResponseJson r]).

(** [await response.text()]. *)
Definition responseText (r : Response) : Async string :=
  fun _ tr => (Fulfilled (bodyText r), tr ++ [EvResponseText r]).

(** [JSON.parse(errorText)] where [errorText] is the body text of [r]. *)
Definition JSON_parse (r : Response) : Async JSON :=
  fun env tr =>
    (match bodyJson r with
     | Some j => Fulfilled j
     | None => Rejected (mkExn KSyntaxError (parseErrorMessage env (bodyText r)))
     end, tr ++ [EvJsonParse (bodyText r)]).

(** [errorData.error] without optional chaining: reading a property of
    [null] raises a [TypeError]. *)
Definition readProp (v : JSON) (k : string) : Async Value :=
  fun env tr =>
    (match v with
     | JNull => Rejected (mkExn KTypeError (typeErrorMessage env k))
     | _ => Fulfilled (getProp v k)
     end, tr).

(** [new Error(v || fallback)]: the message is the string form of the
    chosen operand. *)
Definition errorOr (v : Value) (fallback : string) : Exn :=
  Error (if truthy v then toStringValue v else fallback).

(** The block that opens the resource functions:
    [if (!token) { const session = await getServerSession(authOptions);
       if (!session?.user?.token) throw new Error("No authentication token");
       token = session.user.token; }]
    Its value is the token used afterwards. *)
Definition tokenOrSession (token : option string) : Async string :=
  if truthyToken token then mret (default "" token)
  else
    session ← getServerSession;
    if truthyToken (sessionToken session)
    then mret (default "" (sessionToken session))
    else throw (Error "No authentication token").

(** [`${response.status} ${response.statusText}`]. *)
Definition statusLine (r : Response) : string :=
  pretty (status r) +:+ " " +:+ statusText r.

(** [console.error("Failed to parse successful response JSON (fn):");
     throw new Error(`Received OK status (${response.status}) but failed
     to parse JSON response.`)]: the handler around the parse of a
    successful body.  Only the first argument of [console.error] is
    recorded. *)
Definition okButUnparseable {A : Type} (fn : string) (r : Response)
    : Async A :=
  emit (EvConsoleError
          ("Failed to parse successful response JSON (" +:+ fn +:+ "):"));;
  throw (Error ("Received OK status (" +:+ pretty (status r)
                +:+ ") but failed to parse JSON response.")).

(** [try { return await response.json(); } catch { ... }]. *)
Definition parseOk (fn : string) (r : Response) : Async JSON :=
  tryCatch (responseJson r) (fun _ => okButUnparseable fn r).

(** The non-OK branch of every function of [tasks.ts]:
    [const errorText = await response.text(); let errorData;
     try { errorData = JSON.parse(errorText); }
     catch { throw new Error(`${what}: ${status} ${statusText}. Server
             responded with: ${errorText}`); }
     throw new Error(errorData?.error || `${what}: ${status} ${statusText}`);] *)
Definition rejectFromText {A : Type} (what : string) (r : Response)
    : Async A :=
  errorText ← responseText r;
  errorData ← tryCatch (JSON_parse r)
    (fun _ => throw (Error (what +:+ ": " +:+ statusLine r
                            +:+ ". Server responded with: " +:+ errorText)));
  throw (errorOr (optChain (Some errorData) "error")
                 (what +:+ ": " +:+ statusLine r)).

(** The non-OK branch of [uploadAttachment] and [deleteAttachment]:
    [let errorData;
     try { errorData = await response.json(); }
     catch { throw new Error(`${what}: ${status} ${statusText}`); }
     throw new Error(errorData?.error || `${what}: ${status} ${statusText}`);] *)
Definition rejectFromJsonGuarded {A : Type} (what : string) (r : Response)
    : Async A :=
  errorData ← tryCatch (responseJson r)
    (fun _ => throw (Error (what +:+ ": " +:+ statusLine r)));
  throw (errorOr (optChain (Some errorData) "error")
                 (what +:+ ": " +:+ statusLine r)).

(** The non-OK branch of the other functions of [attachments.ts]:
    [const errorData = await response.json();
     throw new Error(errorData.error || fallback);] *)
Definition rejectFromJson {A : Type} (fallback : string) (r : Response)
    : Async A :=
  errorData ← responseJson r;
  err ← readProp errorData "error";
  throw (errorOr err fallback).

(** [{ Authorization: `Bearer ${token}`, "Content-Type": "application/json" }]. *)
Definition bearerJsonHeaders (token : string) : list (string * string) :=
  [("Authorization", "Bearer " +:+ token);
   ("Content-Type", "application/json")].

(** [{ Authorization: `Bearer ${token}` }]. *)
Definition bearerHeaders (token : string) : list (string * string) :=
  [("Authorization", "Bearer " +:+ token)].

(** [new URLSearchParams(entries).toString()]. *)
Fixpoint searchParams (env : Env) (entries : list (string * string)) : string :=
  match entries with
  | [] => ""
  | [(k, v)] =>
      encodeURIComponentForm env k +:+ "=" +:+ encodeURIComponentForm env v
  | (k, v) :: rest =>
      encodeURIComponentForm env k +:+ "=" +:+ encodeURIComponentForm env v
        +:+ "&" +:+ searchParams env rest
  end.

End Async.

(** ** [lib/api/tasks.ts] *)
Module TasksApi.
Import Js Http Async.

Definition createTask (data : JSON) (token : option string) : Async JSON :=
  token ← tokenOrSession token;
  env ← getEnv;
  response ← fetch {| url := API_URL env +:+ "/tasks";
                      method := "POST";
                      headers := bearerJsonHeaders token;
                      body := Some (JsonText data);
                      credentials := None |};
  if negb (ok response)
  then rejectFromText "Failed to create task" response
  else parseOk "createTask" response.

(** [limit = 20] and [offset = 0] are the defaults of omitted arguments. *)
Definition getAllTasks (projectId : string) (token : option string)
    (limit offset : option Z) : Async JSON :=
  token ← tokenOrSession token;
  env ← getEnv;
  let params := searchParams env
                  [("projectId", projectId);
                   ("limit", pretty (default 20 limit));
                   ("offset", pretty (default 0 offset))] in
  response ← fetch {| url := API_URL env +:+ "/tasks?" +:+ params;
                      method := "GET";
                      headers := bearerJsonHeaders token;
                      body := None;
                      credentials := None |};
  if negb (ok response)
  then rejectFromText "Failed to fetch tasks" response
  else parseOk "getAllTasks" response.

Definition getTask (id : string) (token : option string) : Async JSON :=
  token ← tokenOrSession token;
  env ← getEnv;
  response ← fetch {| url := API_URL env +:+ "/tasks/" +:+ id;
                      method := "GET";
                      headers := bearerJsonHeaders token;
                      body := None;
                      credentials := None |};
  if negb (ok response)
  then rejectFromText "Failed to fetch task" response
  else parseOk "getTask" response.

Definition updateTask (taskId : string) (taskData : JSON)
    (token : option string) : Async JSON :=
  token ← tokenOrSession token;
  env ← getEnv;
  response ← fetch {| url := API_URL env +:+ "/tasks/" +:+ taskId;
                      method := "PUT";
                      headers := [("Content-Type", "application/json");
                                  ("Authorization", "Bearer " +:+ token)];
                      body := Some (JsonText taskData);
                      credentials := None |};
  if negb (ok response)
  then rejectFromText "Failed to update task" response
  else parseOk "updateTask" response.

(** [deleteTask] has its own guard: no token, no session lookup. *)
Definition deleteTask (taskId : string) (token : option string)
    : Async unit :=
  if negb (truthyToken token)
  then throw (Error "Authentication token is required.")
  else
    env ← getEnv;
    response ← fetch {| url := API_URL env +:+ "/tasks/" +:+ taskId;
                        method := "DELETE";
                        headers := bearerHeaders (default "" token);
                        body := None;
                        credentials := None |};
    if negb (ok response)
    then rejectFromText "Failed to delete task" response
    else if status response =? 204
    then mret tt
    else _ ← parseOk "deleteTask" response; mret tt.

Definition getTaskAssignees (taskId : string) (token : option string)
    : Async JSON :=
  token ← tokenOrSession token;
  env ← getEnv;
  response ← fetch {| url := API_URL env +:+ "/tasks/" +:+ taskId
                               +:+ "/assignees";
                      method := "GET";
                      headers := bearerJsonHeaders token;
                      body := None;
                      credentials := None |};
  if negb (ok response)
  then rejectFromText "Failed to fetch task assignees" response
  else parseOk "getTaskAssignees" response.

Definition assignUserToTask (taskId userId : string)
    (token : option string) : Async JSON :=
  token ← tokenOrSession token;
  env ← getEnv;
  response ← fetch {| url := API_URL env +:+ "/tasks/" +:+ taskId
                               +:+ "/assignees";
                      method := "POST";
                      headers := bearerJsonHeaders token;
                      body := Some (JsonText (JObj [("userId", JStr userId)]));
                      credentials := None |};
  if negb (ok response)
  then rejectFromText "Failed to assign user to task" response
  else parseOk "assignUserToTask" response.

Definition unassignUserFromTask (taskId userId : string)
    (token : option string) : Async JSON :=
  token ← tokenOrSession token;
  env ← getEnv;
  response ← fetch {| url := API_URL env +:+ "/tasks/" +:+ taskId
                               +:+ "/assignees/" +:+ userId;
                      method := "DELETE";
                      headers := bearerJsonHeaders token;
                      body := None;
                      credentials := None |};
  if negb (ok response)
  then rejectFromText "Failed to unassign user from task" response
  else if status response =? 204
  then mret (JObj [("message", JStr "Task unassigned successfully")])
  else parseOk "unassignUserFromTask" response.

Definition getUserTasks (token : option string) (limit offset : option Z)
    : Async JSON :=
  token ← tokenOrSession token;
  env ← getEnv;
  let params := searchParams env
                  [("limit", pretty (default 20 limit));
                   ("offset", pretty (default 0 offset))] in
  response ← fetch {| url := API_URL env +:+ "/tasks/me?" +:+ params;
                      method := "GET";
                      headers := bearerJsonHeaders token;
                      body := None;
                      credentials := None |};
  if negb (ok response)
  then rejectFromText "Failed to fetch user tasks" response
  else parseOk "getUserTasks" response.

End TasksApi.

(** ** [lib/api/attachments.ts] *)
Module AttachmentsApi.
Import Js Http Async.

Definition createAttachment (data : JSON) (token : option string)
    : Async JSON :=
  token ← tokenOrSession token;
  env ← getEnv;
  response ← fetch {| url := API_URL env +:+ "/attachments";
                      method := "POST";
                      headers := bearerJsonHeaders token;
                      body := Some (JsonText data);
                      credentials := None |};
  if negb (ok response)
  then rejectFromJson "Failed to create attachment" response
  else responseJson response.

(** [if (!formData.has("taskId")) formData.append("taskId", taskId)];
    the form as sent. *)
Definition withTaskId (taskId : string) (formData : FormData) : FormData :=
  if negb (formHas "taskId" formData)
  then formData ++ [("taskId", FormString taskId)]
  else formData.

Definition uploadAttachment (taskId : string) (formData : FormData)
    (token : option string) : Async JSON :=
  token ← tokenOrSession token;
  env ← getEnv;
  response ← fetch {| url := API_URL env +:+ "/attachments";
                      method := "POST";
                      headers := bearerHeaders token;
                      body := Some (FormBody (withTaskId taskId formData));
                      credentials := None |};
  if negb (ok response)
  then rejectFromJsonGuarded "Failed to upload attachment" response
  else parseOk "uploadAttachment" response.

Definition getTaskAttachments (taskId : string) (token : option string)
    : Async JSON :=
  token ← tokenOrSession token;
  env ← getEnv;
  response ← fetch {| url := API_URL env +:+ "/attachments?taskId="
                               +:+ taskId;
                      method := "GET";
                      headers := bearerJsonHeaders token;
                      body := None;
                      credentials := None |};
  if negb (ok response)
  then rejectFromJson "Failed to fetch attachments" response
  else responseJson response.

Definition getAllAttachments (token : option string) : Async JSON :=
  token ← tokenOrSession token;
  env ← getEnv;
  response ← fetch {| url := API_URL env +:+ "/attachments";
                      method := "GET";
                      headers := bearerJsonHeaders token;
                      body := None;
                      credentials := None |};
  if negb (ok response)
  then rejectFromJson "Failed to fetch attachments" response
  else responseJson response.

Definition getAttachment (id : string) (token : option string)
    : Async JSON :=
  token ← tokenOrSession token;
  env ← getEnv;
  response ← fetch {| url := API_URL env +:+ "/attachments/" +:+ id;
                      method := "GET";
                      headers := bearerJsonHeaders token;
                      body := None;
                      credentials := None |};
  if negb (ok response)
  then rejectFromJson "Failed to fetch attachment" response
  else responseJson response.

Definition updateAttachment (id : string) (data : JSON)
    (token : option string) : Async JSON :=
  token ← tokenOrSession token;
  env ← getEnv;
  response ← fetch {| url := API_URL env +:+ "/attachments/" +:+ id;
                      method := "PUT";
                      headers := bearerJsonHeaders token;
                      body := Some (JsonText data);
                      credentials := None |};
  if negb (ok response)
  then rejectFromJson "Failed to update attachment" response
  else responseJson response.

Definition deleteAttachment (attachmentId : string) (token : option string)
    : Async JSON :=
  token ← tokenOrSession token;
  env ← getEnv;
  response ← fetch {| url := API_URL env +:+ "/attachments/"
                               +:+ attachmentId;
                      method := "DELETE";
                      headers := bearerHeaders token;
                      body := None;
                      credentials := None |};
  if negb (ok response)
  then rejectFromJsonGuarded "Failed to delete attachment" response
  else if status response =? 204
  then mret (JObj [("message", JStr "Attachment deleted successfully")])
  else parseOk "deleteAttachment" response.

Definition getAttachmentDownloadUrl (env : Env) (attachmentId : string)
    : string :=
  API_URL env +:+ "/attachments/" +:+ attachmentId +:+ "/download".

Definition getAttachmentPreviewUrl (env : Env) (attachmentId : string)
    : string :=
  API_URL env +:+ "/attachments/" +:+ attachmentId
    +:+ "/download?inline=true".

(** Returns [data.url], whatever the parsed body holds there. *)
Definition getAttachmentSignedDownloadUrl (attachmentId : string)
    (token : option string) : Async Value :=
  token ← tokenOrSession token;
  env ← getEnv;
  response ← fetch {| url := API_URL env +:+ "/attachments/"
                               +:+ attachmentId +:+ "/signed-url";
                      method := "GET";
                      headers := bearerJsonHeaders token;
                      body := None;
                      credentials := None |};
  if negb (ok response)
  then rejectFromJson "Failed to get signed download URL" response
  else data ← responseJson response; readProp data "url".

Definition getSignedUploadUrl (taskId fileName fileType : string)
    (token : option string) : Async JSON :=
  token ← tokenOrSession token;
  env ← getEnv;
  response ← fetch {| url := API_URL env
                               +:+ "/attachments/signed-upload-url";
                      method := "POST";
                      headers := bearerJsonHeaders token;
                      body := Some (JsonText
                                      (JObj [("taskId", JStr taskId);
                                             ("fileName", JStr fileName);
                                             ("fileType", JStr fileType)]));
                      credentials := None |};
  if negb (ok response)
  then rejectFromJson "Failed to get signed upload URL" response
  else responseJson response.

(** The direct upload: no token, and the [Response] is returned as it
    is, whatever its status. *)
Definition uploadFileToGcs (signedUrl : string) (file : File)
    : Async Response :=
  fetch {| url := signedUrl;
           method := "PUT";
           headers := [("Content-Type", type file);
                       ("Content-Length", pretty (size file))];
           body := Some (FileBody file);
           credentials := None |}.

(** The argument object of [createAttachmentRecord]; [gcsFileName] is
    whatever the caller destructured from the signed-URL answer. *)
Record RecordData : Type := mkRecordData {
  taskId : string;
  fileName : string;
  gcsFileName : Value;
  fileType : string;
  fileSize : Z
}.

Definition createAttachmentRecord (d : RecordData) (token : option string)
    : Async JSON :=
  token ← tokenOrSession token;
  env ← getEnv;
  response ← fetch {| url := API_URL env +:+ "/attachments/record";
                      method := "POST";
                      headers := bearerJsonHeaders token;
                      body := Some (JsonText
                                (objectLiteral
                                   [("taskId", Some (JStr (taskId d)));
                                    ("fileName", Some (JStr (fileName d)));
                                    ("fileType", Some (JStr (fileType d)));
                                    ("gcsFileName", gcsFileName d);
                                    ("fileSize", Some (JNum (fileSize d)))]));
                      credentials := None |};
  if negb (ok response)
  then rejectFromJson "Failed to create attachment record" response
  else responseJson response.

End AttachmentsApi.

(** ** The registration helper *)
Module Auth.
Import Js Http Async.

(** [`${process.env.NEXT_PUBLIC_API_URL}/auth/register`]: an unset
    variable prints as [undefined]. *)
Definition registerUrl (env : Env) : string :=
  match NEXT_PUBLIC_API_URL env with
  | Some s => s
  | None => "undefined"
  end +:+ "/auth/register".

Definition userRegister (name telephone address email password : string)
    : Async JSON :=
  env ← getEnv;
  response ← fetch {| url := registerUrl env;
                      method := "POST";
                      headers := [("Content-Type", "application/json")];
                      body := Some (JsonText
                                      (JObj [("name", JStr name);
                                             ("email", JStr email);
                                             ("password", JStr password)]));
                      credentials := None |};
  if negb (ok response)
  then throw (Error "Failed to register")
  else responseJson response.

End Auth.

(** ** The project navigation: its duplicate filter *)
Module ProjectNav.

(** Modelled from the spec: the [Project] type of [lib/api/projects],
    which the sources only import -- an identifier and a display name. *)
Record Project : Type := mkProject {
  project_id : string;
  project_name : string
}.

(** [self.findIndex(pred)]: the first index whose element satisfies
    [pred], [-1] when there is none. *)
Fixpoint findIndexFrom {A : Type} (pred : A -> bool) (i : Z) (self : list A)
    : Z :=
  match self with
  | [] => -1
  | t :: rest => if pred t then i else findIndexFrom pred (i + 1) rest
  end.

Definition findIndex {A : Type} (pred : A -> bool) (self : list A) : Z :=
  findIndexFrom pred 0 self.

(** [arr.filter((item, index, self) => keep item index self)]: the
    callback sees the element, its index and the whole array. *)
Fixpoint filterFrom {A : Type} (keep : A -> Z -> list A -> bool)
    (self : list A) (index : Z) (rest : list A) : list A :=
  match rest with
  | [] => []
  | item :: rest' =>
      if keep item index self
      then item :: filterFrom keep self (index + 1) rest'
      else filterFrom keep self (index + 1) rest'
  end.

Definition filterWithIndex {A : Type} (keep : A -> Z -> list A -> bool)
    (arr : list A) : list A :=
  filterFrom keep arr 0 arr.

(** [items.filter((item, index, self) =>
      index === self.findIndex((t) => t.project_id === item.project_id))]. *)
Definition uniqueItems (items : list Project) : list Project :=
  filterWithIndex
    (fun item index self =>
       index =? findIndex
                  (fun t => String.eqb (project_id t) (project_id item)) self)
    items.

(** The projects [ProjectNav] renders, one menu entry each: nothing
    ([null]) for a missing or empty list. *)
Definition ProjectNav (items : option (list Project))
    : option (list Project) :=
  match items with
  | None | Some [] => None
  | Some l => Some (uniqueItems l)
  end.

(** The entries on screen, an empty sequence when nothing is rendered. *)
Definition renderedProjects (items : option (list Project)) : list Project :=
  default [] (ProjectNav items).

(** The reading of "keep the first occurrence of each id": walk the
    list once and drop a project whose id was met before. *)
Fixpoint keepFirst (seen : gset string) (l : list Project) : list Project :=
  match l with
  | [] => []
  | p :: rest =>
      if decide (project_id p ∈ seen) then keepFirst seen rest
      else p :: keepFirst ({[project_id p]} ∪ seen) rest
  end.

End ProjectNav.

(** ** [components/task-attachments.tsx] *)
Module TaskAttachments.
Import Js Http Async AttachmentsApi.

(** [canPreviewType]: [fileType] is [string | null]. *)
Definition canPreviewType (fileType : option string) : bool :=
  if negb (truthyToken fileType) then false
  else existsb (fun prefix => String.prefix prefix (default "" fileType))
               ["image/"; "video/"; "application/pdf"].

(** The [Attachment] interface of [lib/api/attachments.ts]. *)
Record Attachment : Type := mkAttachment {
  attachment_id : string;
  task_id : string;
  file_name : string;
  file_path : string;
  file_type : string;
  file_size : option Z;
  uploaded_at : string;
  created_at : string;
  file_url : option string
}.

Record Props : Type := mkProps { taskId : string; token : option string }.

(** The component's state: one field per [useState], and the value of
    the file input behind [fileInputRef] ([None] while the ref is
    [null]).  [attachments] holds the objects made from the server's
    answer. *)
Record UiState : Type := mkUiState {
  attachments : list JSON;
  isLoading : bool;
  error : option string;
  selectedFile : option File;
  isUploading : bool;
  uploadProgress : Z;
  fileInputValue : option string;
  deleteAlertOpen : bool;
  deletingAttachmentId : option string;
  isPreviewModalOpen : bool;
  previewAttachment : option Attachment
}.

(** A handler: an asynchronous computation that also updates the state. *)
Definition Handler (A : Type) : Type :=
  Env -> UiState -> Trace -> Completion A * (UiState * Trace).

Definition hresolve {A : Type} (a : A) : Handler A :=
  fun _ st tr => (Fulfilled a, (st, tr)).

Definition hthrow {A : Type} (e : Exn) : Handler A :=
  fun _ st tr => (Rejected e, (st, tr)).

Definition hawait {A B : Type} (m : Handler A) (k : A -> Handler B)
    : Handler B :=
  fun env st tr =>
    match m env st tr with
    | (Fulfilled a, (st', tr')) => k a env st' tr'
    | (Rejected e, w) => (Rejected e, w)
    end.

#[global] Instance Handler_ret : MRet Handler := @hresolve.
#[global] Instance Handler_bind : MBind Handler :=
  fun A B k m => hawait m k.

(** Calling a function of the API layer and awaiting it. *)
Definition call {A : Type} (m : Async A) : Handler A :=
  fun env st tr => match m env tr with (c, tr') => (c, (st, tr')) end.

Definition htryCatch {A : Type} (body : Handler A)
    (handler : Exn -> Handler A) : Handler A :=
  fun env st tr =>
    match body env st tr with
    | (Fulfilled a, w) => (Fulfilled a, w)
    | (Rejected e, (st', tr')) => handler e env st' tr'
    end.

Definition htryFinally {A : Type} (body : Handler A) (fin : Handler unit)
    : Handler A :=
  fun env st tr =>
    match body env st tr with
    | (c, (st', tr')) =>
        match fin env st' tr' with
        | (Fulfilled _, w) => (c, w)
        | (Rejected e, w) => (Rejected e, w)
        end
    end.

(** A call that is not awaited: its promise is dropped, so its outcome
    reaches nobody.  The callee is run at the call site: its request
    leaves there, and what it does once the answer is in touches only
    the fields [attachments], [isLoading] and [error], which the callers
    do not write afterwards. *)
Definition notAwaited {A : Type} (m : Handler A) : Handler unit :=
  fun env st tr => match m env st tr with (_, w) => (Fulfilled tt, w) end.

Definition getState : Handler UiState :=
  fun _ st tr => (Fulfilled st, (st, tr)).

Definition modify (f : UiState -> UiState) : Handler unit :=
  fun _ st tr => (Fulfilled tt, (f st, tr)).

Definition toast (k : ToastKind) (msg : string) : Handler unit :=
  call (emit (EvToast k msg)).

Definition console_error (msg : string) : Handler unit :=
  call (emit (EvConsoleError msg)).

(** The [useState] setters. *)
Definition setAttachments (v : list JSON) : Handler unit :=
  modify (fun st =>
    mkUiState v (isLoading st) (error st) (selectedFile st) (isUploading st)
      (uploadProgress st) (fileInputValue st) (deleteAlertOpen st)
      (deletingAttachmentId st) (isPreviewModalOpen st)
      (previewAttachment st)).

Definition setIsLoading (v : bool) : Handler unit :=
  modify (fun st =>
    mkUiState (attachments st) v (error st) (selectedFile st)
      (isUploading st) (uploadProgress st) (fileInputValue st)
      (deleteAlertOpen st) (deletingAttachmentId st)
      (isPreviewModalOpen st) (previewAttachment st)).

Definition setError (v : option string) : Handler unit :=
  modify (fun st =>
    mkUiState (attachments st) (isLoading st) v (selectedFile st)
      (isUploading st) (uploadProgress st) (fileInputValue st)
      (deleteAlertOpen st) (deletingAttachmentId st)
      (isPreviewModalOpen st) (previewAttachment st)).

Definition setSelectedFile (v : option File) : Handler unit :=
  modify (fun st =>
    mkUiState (attachments st) (isLoading st) (error st) v
      (isUploading st) (uploadProgress st) (fileInputValue st)
      (deleteAlertOpen st) (deletingAttachmentId st)
      (isPreviewModalOpen st) (previewAttachment st)).

Definition setIsUploading (v : bool) : Handler unit :=
  modify (fun st =>
    mkUiState (attachments st) (isLoading st) (error st) (selectedFile st)
      v (uploadProgress st) (fileInputValue st) (deleteAlertOpen st)
      (deletingAttachmentId st) (isPreviewModalOpen st)
      (previewAttachment st)).

Definition setUploadProgress (v : Z) : Handler unit :=
  modify (fun st =>
    mkUiState (attachments st) (isLoading st) (error st) (selectedFile st)
      (isUploading st) v (fileInputValue st) (deleteAlertOpen st)
      (deletingAttachmentId st) (isPreviewModalOpen st)
      (previewAttachment st)).

(** [if (fileInputRef.current) fileInputRef.current.value = ""]. *)
Definition clearFileInput : Handler unit :=
  modify (fun st =>
    mkUiState (attachments st) (isLoading st) (error st) (selectedFile st)
      (isUploading st) (uploadProgress st)
      (match fileInputValue st with Some _ => Some "" | None => None end)
      (deleteAlertOpen st) (deletingAttachmentId st)
      (isPreviewModalOpen st) (previewAttachment st)).

Definition setDeleteAlertOpen (v : bool) : Handler unit :=
  modify (fun st =>
    mkUiState (attachments st) (isLoading st) (error st) (selectedFile st)
      (isUploading st) (uploadProgress st) (fileInputValue st) v
      (deletingAttachmentId st) (isPreviewModalOpen st)
      (previewAttachment st)).

Definition setDeletingAttachmentId (v : option string) : Handler unit :=
  modify (fun st =>
    mkUiState (attachments st) (isLoading st) (error st) (selectedFile st)
      (isUploading st) (uploadProgress st) (fileInputValue st)
      (deleteAlertOpen st) v (isPreviewModalOpen st)
      (previewAttachment st)).

Definition setIsPreviewModalOpen (v : bool) : Handler unit :=
  modify (fun st =>
    mkUiState (attachments st) (isLoading st) (error st) (selectedFile st)
      (isUploading st) (uploadProgress st) (fileInputValue st)
      (deleteAlertOpen st) (deletingAttachmentId st) v
      (previewAttachment st)).

Definition setPreviewAttachment (v : option Attachment) : Handler unit :=
  modify (fun st =>
    mkUiState (attachments st) (isLoading st) (error st) (selectedFile st)
      (isUploading st) (uploadProgress st) (fileInputValue st)
      (deleteAlertOpen st) (deletingAttachmentId st)
      (isPreviewModalOpen st) v).

(** [{ ...att }]: the own enumerable properties of a value -- the fields
    of an object, the indexed elements of an array, the characters of a
    string, nothing for the other primitives. *)
Definition spreadFields (att : JSON) : list (string * JSON) :=
  match att with
  | JObj fields => fields
  | JArr items => imap (fun i x => (pretty (Z.of_nat i), x)) items
  | JStr s =>
      imap (fun i c => (pretty (Z.of_nat i), JStr (String c EmptyString)))
           (String.list_ascii_of_string s)
  | _ => []
  end.

(** Writing property [k] of an object literal after a spread: an
    existing key keeps its place; an [undefined] value reads like an
    absent key and is kept as one. *)
Fixpoint setField (k : string) (v : Value) (fields : list (string * JSON))
    : list (string * JSON) :=
  match fields with
  | [] => match v with Some j => [(k, j)] | None => [] end
  | (k', old) :: rest =>
      if String.eqb k k'
      then match v with Some j => (k, j) :: rest | None => rest end
      else (k', old) :: setField k v rest
  end.

(** [(att) => ({ ...att, created_at: att.created_at || att.uploaded_at })]. *)
Definition formatAttachment (att : JSON) : Async JSON :=
  created ← readProp att "created_at";
  let stamp := if truthy created then created else getProp att "uploaded_at" in
  mret (JObj (setField "created_at" stamp (spreadFields att))).

Fixpoint mapAsync {A B : Type} (f : A -> Async B) (l : list A)
    : Async (list B) :=
  match l with
  | [] => mret []
  | x :: rest => y ← f x; ys ← mapAsync f rest; mret (y :: ys)
  end.

(** [data.map(...)]: only arrays have [map]. *)
Definition formatData (data : JSON) : Async (list JSON) :=
  match data with
  | JArr items => mapAsync formatAttachment items
  | _ => env ← getEnv; throw (mkExn KTypeError (typeErrorMessage env "map"))
  end.

(** [err instanceof Error ? err.message : fallback]: every exception of
    this model is an [Error] object. *)
Definition messageOr (err : Exn) (fallback : string) : string :=
  message err.

Definition fetchAttachments (p : Props) : Handler unit :=
  if negb (truthyToken (token p)) then mret tt
  else
    setIsLoading true;;
    setError None;;
    htryFinally
      (htryCatch
         (data ← call (getTaskAttachments (taskId p) (token p));
          formattedData ← call (formatData data);
          setAttachments formattedData)
         (fun err =>
            console_error "Failed to fetch attachments:";;
            setError (Some (messageOr err "Failed to load attachments"));;
            toast ToastError "Failed to load attachments."))
      (setIsLoading false).

(** [handleFileChange]: [files] is the input's file list, if any. *)
Definition handleFileChange (files : option (list File)) : Handler unit :=
  match files with
  | Some (f :: _) => setSelectedFile (Some f)
  | _ => setSelectedFile None
  end.

(** [handleFileUpload]; [e.preventDefault()] has no effect recorded here. *)
Definition handleFileUpload (p : Props) : Handler unit :=
  st ← getState;
  match selectedFile st with
  | Some file =>
      if negb (truthyToken (token p))
      then toast ToastError "Please select a file to upload."
      else
        setIsUploading true;;
        setUploadProgress 0;;
        htryFinally
          (htryCatch
             ((* 1. Get signed upload URL from backend *)
              signed ← call (getSignedUploadUrl (taskId p) (name file)
                               (type file) (token p));
              url ← call (readProp signed "url");
              let gcsFileName := getProp signed "gcsFileName" in
              (* 2. Upload file directly to GCS *)
              uploadRes ← call (uploadFileToGcs (toStringValue url) file);
              if negb (ok uploadRes)
              then hthrow (Error "Failed to upload file to storage.")
              else
                (* 3. Notify backend to create attachment record *)
                call (createAttachmentRecord
                        {| AttachmentsApi.taskId := taskId p;
                           fileName := name file;
                           gcsFileName := gcsFileName;
                           fileType := type file;
                           fileSize := size file |}
                        (token p));;
                toast ToastSuccess
                  ("Attachment " +:+ dquote +:+ name file +:+ dquote
                   +:+ " uploaded successfully.");;
                setSelectedFile None;;
                clearFileInput;;
                notAwaited (fetchAttachments p))
             (fun err =>
                console_error "Failed to upload attachment:";;
                toast ToastError
                  ("Failed to upload attachment: "
                   +:+ messageOr err "Upload Error")))
          (setIsUploading false;; setUploadProgress 0)
  | None => toast ToastError "Please select a file to upload."
  end.

Definition handleDeleteClick (attachmentId : string) : Handler unit :=
  setDeletingAttachmentId (Some attachmentId);;
  setDeleteAlertOpen true.

Definition confirmDelete (p : Props) : Handler unit :=
  st ← getState;
  if negb (truthyToken (deletingAttachmentId st))
     || negb (truthyToken (token p))
  then mret tt
  else
    htryFinally
      (htryCatch
         (call (deleteAttachment (default "" (deletingAttachmentId st))
                  (token p));;
          toast ToastSuccess "Attachment deleted successfully.";;
          notAwaited (fetchAttachments p))
         (fun err =>
            console_error "Failed to delete attachment:";;
            toast ToastError
              ("Failed to delete attachment: " +:+ messageOr err "Error")))
      (setDeletingAttachmentId None;; setDeleteAlertOpen false).

Definition handlePreviewClick (attachment : Attachment) : Handler unit :=
  if canPreviewType (Some (file_type attachment))
  then setPreviewAttachment (Some attachment);;
       setIsPreviewModalOpen true
  else toast ToastInfo "Preview is not available for this file type.".

End TaskAttachments.

(** ** The resource functions as one family

  The functions of the two API modules that take a token, each with its
  other arguments, and what calling one does.  A function that returns
  nothing yields [undefined]. *)
Module ApiLayer.
Import Js Http Async.

Inductive ResourceCall : Type :=
| CreateTask (data : JSON)
| GetAllTasks (projectId : string) (limit offset : option Z)
| GetTask (id : string)
| UpdateTask (taskId : string) (taskData : JSON)
| DeleteTask (taskId : string)
| GetTaskAssignees (taskId : string)
| AssignUserToTask (taskId userId : string)
| UnassignUserFromTask (taskId userId : string)
| GetUserTasks (limit offset : option Z)
| CreateAttachment (data : JSON)
| UploadAttachment (taskId : string) (formData : FormData)
| GetTaskAttachments (taskId : string)
| GetAllAttachments
| GetAttachment (id : string)
| UpdateAttachment (id : string) (data : JSON)
| DeleteAttachment (attachmentId : string)
| GetAttachmentSignedDownloadUrl (attachmentId : string)
| GetSignedUploadUrl (taskId fileName fileType : string)
| CreateAttachmentRecord (d : AttachmentsApi.RecordData).

Definition invoke (call : ResourceCall) (token : option string)
    : Async Value :=
  match call with
  | CreateTask data => map Some (TasksApi.createTask data token)
  | GetAllTasks projectId limit offset =>
      map Some (TasksApi.getAllTasks projectId token limit offset)
  | GetTask id => map Some (TasksApi.getTask id token)
  | UpdateTask taskId taskData =>
      map Some (TasksApi.updateTask taskId taskData token)
  | DeleteTask taskId => map (fun _ => None) (TasksApi.deleteTask taskId token)
  | GetTaskAssignees taskId =>
      map Some (TasksApi.getTaskAssignees taskId token)
  | AssignUserToTask taskId userId =>
      map Some (TasksApi.assignUserToTask taskId userId token)
  | UnassignUserFromTask taskId userId =>
      map Some (TasksApi.unassignUserFromTask taskId userId token)
  | GetUserTasks limit offset =>
      map Some (TasksApi.getUserTasks token limit offset)
  | CreateAttachment data =>
      map Some (AttachmentsApi.createAttachment data token)
  | UploadAttachment taskId formData =>
      map Some (AttachmentsApi.uploadAttachment taskId formData token)
  | GetTaskAttachments taskId =>
      map Some (AttachmentsApi.getTaskAttachments taskId token)
  | GetAllAttachments => map Some (AttachmentsApi.getAllAttachments token)
  | GetAttachment id => map Some (AttachmentsApi.getAttachment id token)
  | UpdateAttachment id data =>
      map Some (AttachmentsApi.updateAttachment id data token)
  | DeleteAttachment attachmentId =>
      map Some (AttachmentsApi.deleteAttachment attachmentId token)
  | GetAttachmentSignedDownloadUrl attachmentId =>
      AttachmentsApi.getAttachmentSignedDownloadUrl attachmentId token
  | GetSignedUploadUrl taskId fileName fileType =>
      map Some (AttachmentsApi.getSignedUploadUrl taskId fileName fileType
                  token)
  | CreateAttachmentRecord d =>
      map Some (AttachmentsApi.createAttachmentRecord d token)
  end.

(** [deleteTask] is the one function with a guard of its own. *)
Definition isDeleteTask (call : ResourceCall) : bool :=
  match call with DeleteTask _ => true | _ => false end.

(** The functions whose non-OK branch reads the body under a [try]:
    all of [tasks.ts], and [uploadAttachment] and [deleteAttachment]. *)
Definition guardsErrorBody (call : ResourceCall) : bool :=
  match call with
  | CreateTask _ | GetAllTasks _ _ _ | GetTask _ | UpdateTask _ _
  | DeleteTask _ | GetTaskAssignees _ | AssignUserToTask _ _
  | UnassignUserFromTask _ _ | GetUserTasks _ _
  | UploadAttachment _ _ | DeleteAttachment _ => true
  | _ => false
  end.

End ApiLayer.

(** ** Concrete inputs used in the examples below *)
Module Samples.
Import Js Http Async.

(** A backend that answers every request with [r]. *)
Definition alwaysAnswers (r : Response) : Trace -> Request -> FetchResult :=
  fun _ _ => Responded r.

(** An environment with the API variable set, a session holding
    [sessionTok] (none when [None]) and the given network. *)
Definition envWith (sessionTok : option string)
    (net : Trace -> Request -> FetchResult) : Env :=
  {| NEXT_PUBLIC_API_URL := Some "https://api.example.test/api/v1";
     session := match sessionTok with
                | Some t => Some (mkSession (Some (mkUser (Some t))))
                | None => None
                end;
     network := net;
     parseErrorMessage := fun _ => "Unexpected token in JSON at position 0";
     typeErrorMessage :=
       fun k => "Cannot read properties of null (reading " +:+ k +:+ ")";
     encodeURIComponentForm := fun s => s |}.

Definition noContent : Response :=
  {| status := 204; statusText := "No Content"; bodyText := "";
     bodyJson := None |}.

(** A gateway error page: not JSON. *)
Definition badGateway : Response :=
  {| status := 502; statusText := "Bad Gateway";
     bodyText := "<html><body>502 Bad Gateway</body></html>";
     bodyJson := None |}.

(** A key or a string value of a JSON text. *)
Definition quoted (s : string) : string := dquote +:+ s +:+ dquote.

(** A JSON error body. *)
Definition notFound : Response :=
  {| status := 404; statusText := "Not Found";
     bodyText := "{" +:+ quoted "error" +:+ ":" +:+ quoted "Task not found"
                 +:+ "}";
     bodyJson := Some (JObj [("error", JStr "Task not found")]) |}.

Definition report : File :=
  {| name := "report.pdf"; type := "application/pdf"; size := 1024 |}.

(** The answer of the signed-upload-URL endpoint. *)
Definition signedUrlAnswer : Response :=
  {| status := 200; statusText := "OK";
     bodyText := "{" +:+ quoted "url" +:+ ":"
                 +:+ quoted "https://storage.example.test/put" +:+ ","
                 +:+ quoted "gcsFileName" +:+ ":"
                 +:+ quoted "tasks/t1/report.pdf" +:+ "}";
     bodyJson := Some (JObj [("url", JStr "https://storage.example.test/put");
                             ("gcsFileName", JStr "tasks/t1/report.pdf")]) |}.

Definition forbidden : Response :=
  {| status := 403; statusText := "Forbidden"; bodyText := "";
     bodyJson := None |}.

(** The backend hands out a signed URL; the storage refuses the PUT. *)
Definition storageRefuses : Trace -> Request -> FetchResult :=
  fun _ req =>
    if String.eqb (method req) "PUT" then Responded forbidden
    else Responded signedUrlAnswer.

Definition pdfWithCharset : TaskAttachments.Attachment :=
  {| TaskAttachments.attachment_id := "a1";
     TaskAttachments.task_id := "t1";
     TaskAttachments.file_name := "scan.pdf";
     TaskAttachments.file_path := "tasks/t1/scan.pdf";
     TaskAttachments.file_type := "application/pdf; charset=binary";
     TaskAttachments.file_size := Some 2048;
     TaskAttachments.uploaded_at := "2025-01-01T00:00:00.000Z";
     TaskAttachments.created_at := "2025-01-01T00:00:00.000Z";
     TaskAttachments.file_url := None |}.

(** The component after its list has loaded, nothing selected. *)
Definition idle : TaskAttachments.UiState :=
  {| TaskAttachments.attachments := [JObj [("attachment_id", JStr "a1")]];
     TaskAttachments.isLoading := false;
     TaskAttachments.error := None;
     TaskAttachments.selectedFile := None;
     TaskAttachments.isUploading := false;
     TaskAttachments.uploadProgress := 0;
     TaskAttachments.fileInputValue := Some "";
     TaskAttachments.deleteAlertOpen := false;
     TaskAttachments.deletingAttachmentId := None;
     TaskAttachments.isPreviewModalOpen := false;
     TaskAttachments.previewAttachment := None |}.

(** [idle] with [report] chosen in the file input. *)
Definition fileChosen : TaskAttachments.UiState :=
  {| TaskAttachments.attachments := [JObj [("attachment_id", JStr "a1")]];
     TaskAttachments.isLoading := false;
     TaskAttachments.error := None;
     TaskAttachments.selectedFile := Some report;
     TaskAttachments.isUploading := false;
     TaskAttachments.uploadProgress := 0;
     TaskAttachments.fileInputValue := Some "report.pdf";
     TaskAttachments.deleteAlertOpen := false;
     TaskAttachments.deletingAttachmentId := None;
     TaskAttachments.isPreviewModalOpen := false;
     TaskAttachments.previewAttachment := None |}.

(** [idle] with the delete prompt open on attachment [a1]. *)
Definition promptOpen : TaskAttachments.UiState :=
  {| TaskAttachments.attachments := [JObj [("attachment_id", JStr "a1")]];
     TaskAttachments.isLoading := false;
     TaskAttachments.error := None;
     TaskAttachments.selectedFile := None;
     TaskAttachments.isUploading := false;
     TaskAttachments.uploadProgress := 0;
     TaskAttachments.fileInputValue := Some "";
     TaskAttachments.deleteAlertOpen := true;
     TaskAttachments.deletingAttachmentId := Some "a1";
     TaskAttachments.isPreviewModalOpen := false;
     TaskAttachments.previewAttachment := None |}.

End Samples.

(** ** The rest of the task list ([task-list.tsx]) *)
Module TaskList.
Import Js Pagination.

(** [Assignee] of [lib/api/tasks.ts]; an optional field that is absent or
    [null] is [None]. *)
Record Assignee : Type := mkAssignee {
  user_id : string;
  username : option string;
  email : option string
}.

(** [a || b] for an optional string [a]. *)
Definition orElse (a : option string) (b : string) : string :=
  if truthyToken a then default "" a else b.

(** What the assignee cell of a row holds.  An avatar carries its key,
    the arguments handed to [generateGradientBackground] and
    [getInitials], and the text of its tooltip. *)
Inductive AssigneeItem : Type :=
| AvatarItem (key gradientSeed : string) (initialsOf : option string)
    (tooltip : string)
| OverflowItem (hidden : Z)            (* the avatar "+N" *)
| UnassignedItem.                      (* the text "Unassigned" *)

Definition avatarOf (assignee : Assignee) : AssigneeItem :=
  AvatarItem (user_id assignee)
    (orElse (username assignee) (user_id assignee))
    (username assignee)
    (orElse (username assignee)
       (orElse (email assignee) (user_id assignee))).

(** The three expressions of the cell, in order:
    [task.assignees?.slice(0, 3).map(...)],
    [task.assignees && task.assignees.length > 3 && (+N)],
    [!task.assignees || (task.assignees.length === 0 && (Unassigned))];
    [null], [false] and [true] render nothing. *)
Definition assigneesCell (assignees : option (list Assignee))
    : list AssigneeItem :=
  match assignees with
  | Some l => avatarOf <$> take 3 l
  | None => []
  end
  ++ match assignees with
     | Some l =>
         if 3 <? Z.of_nat (length l)
         then [OverflowItem (Z.of_nat (length l) - 3)]
         else []
     | None => []
     end
  ++ match assignees with
     | None => []
     | Some l => if Z.of_nat (length l) =? 0 then [UnassignedItem] else []
     end.

(** The previous and next links of the bar. *)
Definition previousTarget (page : Z) : Z := Z.max 1 (page - 1).
Definition previousDisabled (page : Z) : bool := page =? 1.
Definition nextTarget (page : Z) : Z := page + 1.
Definition nextDisabled (page pageSize total : Z) : bool :=
  total <=? page * pageSize.

(** The props of [TaskListComponent] that decide what is shown; [tasks]
    are the rows, whatever they hold; omitted numbers take their defaults
    [page = 1], [pageSize = 20], [total = 0]. *)
Record Props (Task : Type) : Type := mkProps {
  tasks : list Task;
  isLoading : bool;
  error : option string;
  page : option Z;
  pageSize : option Z;
  total : option Z;
  onPageChange : bool
}.
Arguments tasks {Task} _.
Arguments isLoading {Task} _.
Arguments error {Task} _.
Arguments page {Task} _.
Arguments pageSize {Task} _.
Arguments total {Task} _.
Arguments onPageChange {Task} _.

(** What the component returns. *)
Inductive View (Task : Type) : Type :=
| LoadingView
| ErrorView (msg : string)
| EmptyView
| TableView (rows : list Task) (bar : option (list PageEntry)).
Arguments LoadingView {Task}.
Arguments ErrorView {Task} msg.
Arguments EmptyView {Task}.
Arguments TableView {Task} rows bar.

Definition TaskListComponent {Task : Type} (props : Props Task) : View Task :=
  if isLoading props then LoadingView
  else if truthyToken (error props) then ErrorView (default "" (error props))
  else if Z.of_nat (length (tasks props)) =? 0 then EmptyView
  else TableView (tasks props)
         (paginationBar (default 1 (page props))
            (default 20 (pageSize props)) (default 0 (total props))
            (onPageChange props)).

(** The page numbers of a window, without its markers. *)
Definition pagesOf (w : list PageEntry) : list Z :=
  omap (fun e => match e with PageNum i => Some i | Dots => None end) w.

End TaskList.

(** ** The preview modal and the download link *)
Module PreviewModal.
Import Js Http Async TaskAttachments.

(** [type?.startsWith("image/")], [undefined] for [null] being falsy. *)
Definition isImage (type : option string) : bool :=
  match type with
  | Some t => String.prefix "image/" t
  | None => false
  end.

Definition isVideo (type : option string) : bool :=
  match type with
  | Some t => String.prefix "video/" t
  | None => false
  end.

(** [type === "application/pdf"]. *)
Definition isPdf (type : option string) : bool :=
  match type with
  | Some t => String.eqb t "application/pdf"
  | None => false
  end.

(** The content of the dialog. *)
Inductive ModalView : Type :=
| ImageView (src alt : string)
| VideoView (src : string)
| PdfView (src title : string)
| NotAvailableView (fileType : string).

(** [AttachmentPreviewModal]: [None] is the [null] it returns when it is
    closed or lacks a URL, a name or a type. *)
Definition AttachmentPreviewModal (isOpen : bool)
    (previewUrl fileName fileType : option string) : option ModalView :=
  if negb isOpen || negb (truthyToken previewUrl)
     || negb (truthyToken fileName) || negb (truthyToken fileType)
  then None
  else
    let url := default "" previewUrl in
    let name := default "" fileName in
    Some (if isImage fileType then ImageView url ("Preview of " +:+ name)
          else if isVideo fileType then VideoView url
          else if isPdf fileType then PdfView url ("Preview of " +:+ name)
          else NotAvailableView (default "" fileType)).

(** The modal as [TaskAttachments] renders it from its state:
    [previewUrl] is [getAttachmentPreviewUrl(previewAttachment.attachment_id)]
    or [null]; [fileName] and [fileType] are
    [previewAttachment?.file_name ?? null] and
    [previewAttachment?.file_type ?? null]. *)
Definition renderedModal (env : Env) (st : UiState) : option ModalView :=
  AttachmentPreviewModal (isPreviewModalOpen st)
    (match previewAttachment st with
     | Some a =>
         Some (AttachmentsApi.getAttachmentPreviewUrl env (attachment_id a))
     | None => None
     end)
    (file_name <$> previewAttachment st)
    (file_type <$> previewAttachment st).

(** [onClose] of the modal: [setIsPreviewModalOpen(false)]. *)
Definition closePreview : Handler unit := setIsPreviewModalOpen false.

(** [handleDownload]: the value is the link that was clicked ([href] as
    assigned, and [download]), [None] when the URL could not be had. *)
Definition handleDownload (p : Props) (attachmentId fileName : string)
    : Handler (option (string * string)) :=
  htryCatch
    (url ← call (AttachmentsApi.getAttachmentSignedDownloadUrl attachmentId
                   (token p));
     mret (Some (toStringValue url, fileName)))
    (fun err =>
       toast ToastError
         ("Failed to get download link: " +:+ messageOr err "Error");;
       mret None).

End PreviewModal.

(** ** The login helper *)
Module Login.
Import Js Http Async.

(** [s.split("@")[0]]: the part of [s] before its first ["@"], all of
    [s] when it has none. *)
Fixpoint beforeAt (s : string) : string :=
  match s with
  | EmptyString => EmptyString
  | String c rest =>
      if Ascii.eqb c (Ascii.ascii_of_nat 64) then EmptyString else String c (beforeAt rest)
  end.

(** The user object handed to the session framework. *)
Record LoggedIn : Type := mkLoggedIn {
  id : Value;
  name : JSON;
  email : string;
  token : Value
}.

Definition userLogIn (email password : string) : Async LoggedIn :=
  env ← getEnv;
  response ← fetch {| url := API_URL env +:+ "/auth/login";
                      method := "POST";
                      headers := [("Content-Type", "application/json")];
                      body := Some (JsonText (JObj [("email", JStr email);
                                                    ("password", JStr password)]));
                      credentials := Some "include" |};
  if negb (ok response)
  then rejectFromJson "Authentication failed" response
  else
    data ← responseJson response;
    userId ← readProp data "userId";
    let name := getProp data "name" in
    mret {| id := userId;
            name := if truthy name then default JNull name
                    else JStr (beforeAt email);
            email := email;
            token := getProp data "token" |}.

End Login.

(** ** More of the resource functions as a family *)
Module ApiLayerCases.
Import Js Http Async ApiLayer.

(** The three DELETE functions that answer a 204 themselves. *)
Definition handles204 (call : ResourceCall) : bool :=
  match call with
  | DeleteTask _ | UnassignUserFromTask _ _ | DeleteAttachment _ => true
  | _ => false
  end.

(** What a call returns for a parsed body [j]: the body, except that
    [deleteTask] returns nothing and [getAttachmentSignedDownloadUrl] its
    [url] property. *)
Definition valueFor (call : ResourceCall) (j : JSON) : Value :=
  match call with
  | DeleteTask _ => None
  | GetAttachmentSignedDownloadUrl _ => getProp j "url"
  | _ => Some j
  end.

(** The token a call ends up using. *)
Definition tokenUsed (token : option string) (env : Env) : string :=
  if truthyToken token then default "" token
  else default "" (sessionToken (session env)).

(** Reading the body of a response, by any route. *)
Definition isBodyRead (ev : Event) : bool :=
  match ev with
  | EvResponseJson _ | EvResponseText _ | EvJsonParse _ => true
  | _ => false
  end.

Definition isToast (ev : Event) : bool :=
  match ev with EvToast _ _ => true | _ => false end.

Definition isSuccessToast (ev : Event) : bool :=
  match ev with EvToast ToastSuccess _ => true | _ => false end.

(** The methods of the requests of a trace, in order. *)
Definition methodsOf (tr : Trace) : list string :=
  method <$> requestsOf tr.

End ApiLayerCases.

(** ** More concrete inputs *)
Module MoreSamples.
Import Js Http Async.

(** The backend accepts everything: it hands out a signed URL, the
    storage takes the file, the record is created, and the list comes
    back with one attachment. *)
Definition recordCreated : Response :=
  {| status := 201; statusText := "Created";
     bodyText := "{" +:+ Samples.quoted "message" +:+ ":"
                 +:+ Samples.quoted "created" +:+ "}";
     bodyJson := Some (JObj [("message", JStr "created")]) |}.

Definition storedOk : Response :=
  {| status := 200; statusText := "OK"; bodyText := ""; bodyJson := None |}.

Definition listOfOne : Response :=
  {| status := 200; statusText := "OK";
     bodyText := "[{" +:+ Samples.quoted "attachment_id" +:+ ":"
                 +:+ Samples.quoted "a2" +:+ ","
                 +:+ Samples.quoted "uploaded_at" +:+ ":"
                 +:+ Samples.quoted "2025-02-02" +:+ "}]";
     bodyJson := Some (JArr [JObj [("attachment_id", JStr "a2");
                                   ("uploaded_at", JStr "2025-02-02")]]) |}.

Definition allGoesWell : Trace -> Request -> FetchResult :=
  fun _ req =>
    if String.eqb (method req) "PUT" then Responded storedOk
    else if String.eqb (method req) "GET" then Responded listOfOne
    else if String.eqb (method req) "DELETE" then Responded Samples.noContent
    else if String.prefix "https://api.example.test/api/v1/attachments/record"
              (url req)
    then Responded recordCreated
    else Responded Samples.signedUrlAnswer.

(** The network is down. *)
Definition offline : Trace -> Request -> FetchResult :=
  fun _ _ => Failed (mkExn KTypeError "Failed to fetch").

End MoreSamples.

(** * Properties *)

(** ** The pagination window *)
Section PaginationFacts.
Import Pagination.

(** [ceilDiv] is the ceiling of the quotient. *)
Lemma ceilDiv_bounds (a b : Z) :
  0 < b -> (ceilDiv a b - 1) * b < a <= ceilDiv a b * b.
Proof.
  intros Hb. unfold ceilDiv.
  pose proof (Z.div_mod (- a) b ltac:(lia)) as Hdm.
  pose proof (Z.mod_pos_bound (- a) b Hb) as Hm.
  nia.
Qed.

Lemma ceilDiv_ge_2 (total pageSize : Z) :
  1 <= pageSize -> pageSize < total -> 2 <= ceilDiv total pageSize.
Proof.
  intros H1 H2.
  pose proof (ceilDiv_bounds total pageSize ltac:(lia)) as [_ Hup].
  nia.
Qed.

(** Each iteration appends to the array built so far. *)
Lemma pushEntry_app (page tp : Z) (acc : list PageEntry) (i : Z) :
  pushEntry page tp acc i = acc ++ pushEntry page tp [] i.
Proof.
  unfold pushEntry. repeat case_match; simpl; by rewrite ?app_nil_r.
Qed.

Lemma foldl_pushEntry (page tp : Z) (l : list Z) (acc : list PageEntry) :
  foldl (pushEntry page tp) acc l = acc ++ (l ≫= pushEntry page tp []).
Proof.
  revert acc. induction l as [|i l IH]; intros acc; simpl.
  - by rewrite app_nil_r.
  - rewrite IH, (pushEntry_app _ _ acc). by rewrite <- app_assoc.
Qed.

Lemma pageNumbers_bind (page pageSize total : Z) :
  pageNumbers page pageSize total
  = seqZ 1 (ceilDiv total pageSize)
      ≫= pushEntry page (ceilDiv total pageSize) [].
Proof. unfold pageNumbers. by rewrite foldl_pushEntry. Qed.

(** What one iteration contributes. *)
Lemma pushEntry_num (page tp i n : Z) :
  PageNum n ∈ pushEntry page tp [] i ->
  n = i /\ (i = 1 \/ i = tp \/ page - 2 <= i <= page + 2).
Proof.
  unfold pushEntry. repeat case_match; simpl; intros Hin;
    try (by apply elem_of_nil in Hin);
    apply list_elem_of_singleton in Hin; simplify_eq.
  split; [done|]. lia.
Qed.

Lemma pushEntry_shown (page tp i : Z) :
  i = 1 \/ i = tp \/ page - 2 <= i <= page + 2 ->
  pushEntry page tp [] i = [PageNum i].
Proof.
  intros H. unfold pushEntry. case_match; [done|]. lia.
Qed.

Lemma occurrences_app (e : PageEntry) (l k : list PageEntry) :
  occurrences e (l ++ k) = (occurrences e l + occurrences e k)%nat.
Proof. unfold occurrences. by rewrite filter_app, length_app. Qed.

Lemma occurrences_absent (e : PageEntry) (l : list PageEntry) :
  e ∉ l -> occurrences e l = 0%nat.
Proof.
  unfold occurrences. induction l as [|x l IH]; intros Hn; [done|].
  rewrite not_elem_of_cons in Hn. destruct Hn as [Hne Hn].
  rewrite filter_cons_False by congruence. auto.
Qed.

Lemma occurrences_bind_absent (page tp n : Z) (l : list Z) :
  n ∉ l -> occurrences (PageNum n) (l ≫= pushEntry page tp []) = 0%nat.
Proof.
  intros Hn. apply occurrences_absent. intros Hin.
  apply list_elem_of_bind in Hin as (i & Hi & Hl).
  apply pushEntry_num in Hi as [-> _]. done.
Qed.

Lemma occurrences_bind_once (page tp n : Z) (l : list Z) :
  NoDup l -> n ∈ l ->
  n = 1 \/ n = tp \/ page - 2 <= n <= page + 2 ->
  occurrences (PageNum n) (l ≫= pushEntry page tp []) = 1%nat.
Proof.
  intros Hnd Hin Hc. induction Hnd as [|i l Hni Hnd IH]; [by apply elem_of_nil in Hin|].
  rewrite bind_cons, occurrences_app.
  apply elem_of_cons in Hin as [->|Hin].
  - rewrite pushEntry_shown by done.
    rewrite occurrences_bind_absent by done.
    unfold occurrences. by rewrite filter_cons_True.
  - rewrite IH by done.
    rewrite occurrences_absent; [done|].
    intros Hi. apply pushEntry_num in Hi as [-> _]. done.
Qed.

(** Rendering keeps every page number, as often as it was pushed. *)
Lemma occurrences_rendered (page n : Z) (l : list PageEntry) :
  forall (b : bool) (idx : nat),
    occurrences (PageNum n) (shown <$> omap id (mapEntries page b idx l))
    = occurrences (PageNum n) l.
Proof.
  induction l as [|e l IH]; intros b idx; [done|].
  destruct e as [i|]; simpl.
  - unfold occurrences in *. simpl.
    destruct (decide (PageNum i = PageNum n)) as [Heq|Hne].
    + rewrite !filter_cons_True by done. simpl. by rewrite IH.
    + rewrite !filter_cons_False by done. by rewrite IH.
  - unfold occurrences in *.
    rewrite (filter_cons_False _ Dots) by done.
    destruct b; simpl; [by rewrite IH|].
    rewrite filter_cons_False by done. by rewrite IH.
Qed.

Lemma occurrences_pos_elem (e : PageEntry) (l : list PageEntry) :
  (0 < occurrences e l)%nat <-> e ∈ l.
Proof.
  unfold occurrences. split.
  - intros Hpos. destruct (filter (fun x => x = e) l) as [|x k] eqn:Hf;
      [simpl in Hpos; lia|].
    assert (Hx : x ∈ filter (fun x => x = e) l) by (rewrite Hf; left).
    apply list_elem_of_filter in Hx as [-> Hx]. done.
  - intros Hin.
    assert (Hx : e ∈ filter (fun x => x = e) l)
      by (apply list_elem_of_filter; done).
    destruct (filter (fun x => x = e) l); [by apply elem_of_nil in Hx|].
    simpl. lia.
Qed.

(** The [lastWasEllipsis] flag: no marker follows a marker, and none
    comes first when the flag is already set. *)
Lemma mapEntries_no_adjacent (page : Z) (l : list PageEntry) :
  forall (b : bool) (idx : nat),
    noAdjacentDots (shown <$> omap id (mapEntries page b idx l))
    /\ (b = true ->
        head (shown <$> omap id (mapEntries page b idx l)) <> Some Dots).
Proof.
  induction l as [|e l IH]; intros b idx.
  - split; [intros k [Hk _]; by destruct k|done].
  - destruct (IH true (S idx)) as [IHt1 IHt2].
    destruct (IH false (S idx)) as [IHf1 _].
    destruct e as [i|]; simpl.
    + split; [|done].
      intros [|k] [H1 H2]; simpl in *; [done|]. by apply (IHf1 k).
    + destruct b; simpl.
      * split; [exact IHt1|]. intros _. by apply IHt2.
      * split; [|done].
        intros [|k] [H1 H2]; simpl in *.
        -- apply IHt2; [done|]. by rewrite head_lookup.
        -- by apply (IHt1 k).
Qed.

(** C1.  For every valid input (a positive page size, more rows than a
    page holds, a current page between 1 and the last page), the window
    on screen holds page 1 exactly once, the last page exactly once, the
    current page, every existing page within two of the current one, and
    no two adjacent ellipsis markers. *)
Theorem page_window_shape (page pageSize total : Z) :
  validInput page pageSize total ->
  let w := pageWindow page pageSize total in
  let last := ceilDiv total pageSize in
  occurrences (PageNum 1) w = 1%nat
  /\ occurrences (PageNum last) w = 1%nat
  /\ PageNum page ∈ w
  /\ (forall i : Z,
        1 <= i <= last -> page - 2 <= i <= page + 2 -> PageNum i ∈ w)
  /\ noAdjacentDots w.
Proof.
  intros (Hps & Htot & Hpage) w last.
  assert (Hlast : 2 <= last) by (by apply ceilDiv_ge_2).
  assert (Hocc : forall n : Z,
             1 <= n <= last ->
             n = 1 \/ n = last \/ page - 2 <= n <= page + 2 ->
             occurrences (PageNum n) w = 1%nat).
  { intros n Hn Hc. subst w. unfold pageWindow, renderedItems.
    rewrite occurrences_rendered, pageNumbers_bind.
    apply occurrences_bind_once; [apply NoDup_seqZ| |done].
    apply elem_of_seqZ. fold last. lia. }
  assert (Hin : forall n : Z,
             1 <= n <= last ->
             n = 1 \/ n = last \/ page - 2 <= n <= page + 2 ->
             PageNum n ∈ w).
  { intros n Hn Hc. apply occurrences_pos_elem. rewrite Hocc by done. lia. }
  split; [apply Hocc; lia|].
  split; [apply Hocc; lia|].
  split; [apply Hin; [done|lia]|].
  split; [intros i Hi Hnear; apply Hin; [done|lia]|].
  apply mapEntries_no_adjacent.
Qed.

Lemma page_window_shape_witness :
  validInput 5 10 200
  /\ occurrences (PageNum 1) (pageWindow 5 10 200) = 1%nat
  /\ PageNum 5 ∈ pageWindow 5 10 200.
Proof.
  assert (Hv : validInput 5 10 200) by (vm_compute; intuition discriminate).
  split; [exact Hv|].
  pose proof (page_window_shape 5 10 200 Hv) as (H1 & _ & H3 & _).
  split; [exact H1|exact H3].
Defined.

(** C8.  Page 5 of 200 rows by pages of 10: twenty pages, shown as
    1, an ellipsis, 3 to 7, an ellipsis, 20. *)
Theorem page_window_example :
  ceilDiv 200 10 = 20
  /\ pageWindow 5 10 200
     = [PageNum 1; Dots; PageNum 3; PageNum 4; PageNum 5; PageNum 6;
        PageNum 7; Dots; PageNum 20].
Proof. split; vm_compute; reflexivity. Qed.

End PaginationFacts.

(** ** The project navigation *)
Section ProjectNavFacts.
Import ProjectNav.

Implicit Types (l pre rest : list Project) (p q : Project).

Lemma findIndexFrom_none {A : Type} (pred : A -> bool) (xs : list A) (i : Z) :
  (forall x, x ∈ xs -> pred x = false) ->
  forall ys, findIndexFrom pred i (xs ++ ys)
             = findIndexFrom pred (i + Z.of_nat (length xs)) ys.
Proof.
  revert i. induction xs as [|x xs IH]; intros i Hnone ys; simpl.
  - f_equal. lia.
  - rewrite Hnone by left. rewrite IH.
    + f_equal. lia.
    + intros y Hy. apply Hnone. by right.
Qed.

Lemma findIndexFrom_some {A : Type} (pred : A -> bool) (xs : list A) (i : Z) :
  (exists x, x ∈ xs /\ pred x = true) ->
  forall ys, i <= findIndexFrom pred i (xs ++ ys) < i + Z.of_nat (length xs).
Proof.
  revert i. induction xs as [|x xs IH]; intros i (y & Hy & Hp) ys.
  - by apply elem_of_nil in Hy.
  - simpl. destruct (pred x) eqn:Hx; [lia|].
    apply elem_of_cons in Hy as [->|Hy]; [congruence|].
    specialize (IH (i + 1) (ex_intro _ y (conj Hy Hp)) ys). lia.
Qed.

(** The callback keeps an element exactly when no earlier element has
    its id. *)
Lemma keep_first_index pre p rest :
  (Z.of_nat (length pre)
     =? findIndex (fun t => String.eqb (project_id t) (project_id p))
          (pre ++ p :: rest))
  = bool_decide (project_id p ∉ project_id <$> pre).
Proof.
  unfold findIndex. case_bool_decide as Hin.
  - rewrite findIndexFrom_none.
    + simpl. rewrite String.eqb_refl. lia.
    + intros x Hx. apply String.eqb_neq. intros Heq. apply Hin.
      rewrite <- Heq. by apply list_elem_of_fmap_2.
  - apply list_elem_of_fmap in Hin as (x & Hid & Hx).
    pose proof (findIndexFrom_some
                  (fun t => String.eqb (project_id t) (project_id p))
                  pre 0
                  (ex_intro _ x (conj Hx (proj2 (String.eqb_eq _ _)
                                                (eq_sym Hid))))
                  (p :: rest)).
    lia.
Qed.

Lemma filterFrom_keepFirst rest :
  forall pre,
    filterFrom
      (fun item index self =>
         index =? findIndex
                    (fun t => String.eqb (project_id t) (project_id item))
                    self)
      (pre ++ rest) (Z.of_nat (length pre)) rest
    = keepFirst (list_to_set (project_id <$> pre)) rest.
Proof.
  induction rest as [|p rest IH]; intros pre; [done|].
  simpl. rewrite keep_first_index.
  replace (pre ++ p :: rest) with ((pre ++ [p]) ++ rest)
    by (by rewrite <- app_assoc).
  replace (Z.of_nat (length pre) + 1) with (Z.of_nat (length (pre ++ [p])))
    by (rewrite length_app; simpl; lia).
  rewrite IH, fmap_app, list_to_set_app_L. simpl.
  set (seen := list_to_set (project_id <$> pre) : gset string).
  assert (Hmem : project_id p ∈ project_id <$> pre <-> project_id p ∈ seen)
    by (subst seen; by rewrite elem_of_list_to_set).
  case_bool_decide as Hin; destruct (decide (project_id p ∈ seen)) as [Hs|Hs];
    try tauto.
  - do 2 f_equal. set_solver.
  - f_equal. set_solver.
Qed.

Lemma uniqueItems_keepFirst l : uniqueItems l = keepFirst ∅ l.
Proof. apply (filterFrom_keepFirst l []). Qed.

Lemma keepFirst_sublist l : forall seen, keepFirst seen l `sublist_of` l.
Proof.
  induction l as [|p l IH]; intros seen; simpl; [done|].
  case_decide; [by apply sublist_cons|by apply sublist_skip].
Qed.

Lemma keepFirst_ids l :
  forall seen (k : string),
    k ∈ project_id <$> keepFirst seen l
    <-> k ∈ project_id <$> l /\ k ∉ seen.
Proof.
  induction l as [|p l IH]; intros seen k; simpl.
  - rewrite elem_of_nil. tauto.
  - destruct (decide (k = project_id p)) as [->|Hk];
      case_decide as Hs; rewrite ?fmap_cons, ?elem_of_cons, IH;
      rewrite ?elem_of_union, ?elem_of_singleton; tauto.
Qed.

Lemma keepFirst_NoDup l :
  forall seen, NoDup (project_id <$> keepFirst seen l).
Proof.
  induction l as [|p l IH]; intros seen; simpl; [constructor|].
  case_decide; [apply IH|].
  rewrite fmap_cons. constructor; [|apply IH].
  rewrite keepFirst_ids. set_solver.
Qed.

Lemma keepFirst_first l :
  forall seen p,
    p ∈ keepFirst seen l ->
    exists i : nat,
      list_find (fun q => project_id q = project_id p) l = Some (i, p).
Proof.
  induction l as [|q l IH]; intros seen p Hin; simpl in Hin;
    [by apply elem_of_nil in Hin|].
  assert (Hstep : forall seen',
             project_id q ∈ seen' -> p ∈ keepFirst seen' l ->
             exists i : nat,
               list_find (fun q' => project_id q' = project_id p) (q :: l)
               = Some (i, p)).
  { intros seen' Hq Hp.
    assert (Hne : project_id q <> project_id p).
    { intros Heq.
      assert (Hk : project_id p ∈ project_id <$> keepFirst seen' l)
        by (by apply list_elem_of_fmap_2).
      apply keepFirst_ids in Hk as [_ Hk]. congruence. }
    destruct (IH seen' p Hp) as [i Hi]. exists (S i).
    simpl. rewrite decide_False by done. by rewrite Hi. }
  case_decide as Hs.
  - by apply (Hstep seen).
  - apply elem_of_cons in Hin as [->|Hin].
    + exists 0%nat. simpl. by rewrite decide_True.
    + apply (Hstep ({[project_id q]} ∪ seen)); [set_solver|done].
Qed.

Example uniqueItems_example :
  uniqueItems [mkProject "p1" "Alpha"; mkProject "p2" "Beta";
               mkProject "p1" "Alpha again"; mkProject "p3" "Gamma";
               mkProject "p2" "Beta"]
  = [mkProject "p1" "Alpha"; mkProject "p2" "Beta"; mkProject "p3" "Gamma"].
Proof. reflexivity. Qed.

(** C10.  What [ProjectNav] renders for any project list (nothing for a
    missing or empty one): every id at most once, in input order, each
    entry being the first project of the input with its id, and every
    id of the input present. *)
Theorem ProjectNav_deduplicates (items : option (list Project)) :
  let input := default [] items in
  let output := renderedProjects items in
  NoDup (project_id <$> output)
  /\ output `sublist_of` input
  /\ (forall p, p ∈ output ->
        exists i : nat,
          list_find (fun q => project_id q = project_id p) input
          = Some (i, p))
  /\ (forall k : string,
        k ∈ project_id <$> input <-> k ∈ project_id <$> output)
  /\ output = keepFirst ∅ input.
Proof.
  intros input output.
  assert (Hout : output = keepFirst ∅ input).
  { subst input output. unfold renderedProjects, ProjectNav.
    destruct items as [[|p l]|]; simpl; try done.
    by rewrite uniqueItems_keepFirst. }
  rewrite Hout. repeat split.
  - apply keepFirst_NoDup.
  - apply keepFirst_sublist.
  - intros p Hp. by apply (keepFirst_first _ ∅).
  - intros Hk. apply keepFirst_ids. set_solver.
  - intros Hk. by apply keepFirst_ids in Hk as [Hk _].
Qed.

End ProjectNavFacts.

(** ** Preview eligibility *)
Section PreviewFacts.
Import Js Http Async TaskAttachments.

Lemma prefix_startsWith (pre s : string) :
  String.prefix pre s = true <-> startsWith s pre.
Proof.
  unfold startsWith. revert s.
  induction pre as [|a pre IH]; intros s.
  - destruct s; simpl; (split; [intros _; by eexists|done]).
  - destruct s as [|b s]; simpl.
    + split; [done|]. intros [rest Hrest].
      change (String a pre +:+ rest) with (String a (pre +:+ rest)) in Hrest.
      discriminate.
    + destruct (Ascii.ascii_dec a b) as [->|Hne].
      * rewrite IH. split; intros [rest Hrest]; exists rest.
        -- rewrite Hrest. reflexivity.
        -- change (String b pre +:+ rest) with (String b (pre +:+ rest))
             in Hrest.
           congruence.
      * split; [done|]. intros [rest Hrest].
        change (String a pre +:+ rest) with (String a (pre +:+ rest)) in Hrest.
        congruence.
Qed.

(** The three entries of the list are all used as prefixes. *)
Lemma canPreviewType_prefixes (fileType : string) :
  canPreviewType (Some fileType) = true
  <-> startsWith fileType "image/"
      \/ startsWith fileType "video/"
      \/ startsWith fileType "application/pdf".
Proof.
  rewrite <- !prefix_startsWith. unfold canPreviewType.
  destruct fileType as [|a s].
  - simpl. split; [done|]. intros [H|[H|H]]; discriminate.
  - change (negb (truthyToken (Some (String a s)))) with false.
    cbv iota. unfold existsb, default. simpl from_option.
    rewrite !orb_true_iff. split; [|tauto].
    intros [H|[H|[H|H]]]; auto. discriminate.
Qed.

(** C2, as the code has it.  [canPreviewType] holds exactly for the
    types that start with [image/], [video/] or [application/pdf]; it is
    false for the empty string and for [null].  [handlePreviewClick]
    opens the modal on the attachment when it holds and otherwise only
    shows the preview-unavailable notice, leaving the state as it was. *)
Theorem canPreviewType_prefix_match (fileType : string) (a : Attachment)
    (env : Env) (st : UiState) (tr : Trace) :
  (canPreviewType (Some fileType) = true
   <-> startsWith fileType "image/"
       \/ startsWith fileType "video/"
       \/ startsWith fileType "application/pdf")
  /\ canPreviewType None = false
  /\ handlePreviewClick a env st tr
     = if canPreviewType (Some (file_type a))
       then (Fulfilled tt,
             (mkUiState (attachments st) (isLoading st) (error st)
                (selectedFile st) (isUploading st) (uploadProgress st)
                (fileInputValue st) (deleteAlertOpen st)
                (deletingAttachmentId st) true (Some a), tr))
       else (Fulfilled tt,
             (st, tr ++ [EvToast ToastInfo
                           "Preview is not available for this file type."])).
Proof.
  split; [apply canPreviewType_prefixes|]. split; [done|].
  unfold handlePreviewClick.
  destruct (canPreviewType (Some (file_type a))); reflexivity.
Qed.

(** C2 as stated fails: a PDF type with a parameter neither equals
    [application/pdf] nor starts with [image/] or [video/], yet it is
    eligible and its click opens the modal without any notice. *)
Lemma canPreviewType_not_pdf_equality :
  canPreviewType (Some "application/pdf; charset=binary") = true
  /\ ~ (startsWith "application/pdf; charset=binary" "image/"
        \/ startsWith "application/pdf; charset=binary" "video/"
        \/ "application/pdf; charset=binary" = "application/pdf")
  /\ isPreviewModalOpen
       (handlePreviewClick Samples.pdfWithCharset
          (Samples.envWith None (Samples.alwaysAnswers Samples.noContent))
          Samples.idle []).2.1 = true
  /\ (handlePreviewClick Samples.pdfWithCharset
        (Samples.envWith None (Samples.alwaysAnswers Samples.noContent))
        Samples.idle []).2.2 = [].
Proof.
  split; [reflexivity|]. split; [|split; reflexivity].
  rewrite <- !prefix_startsWith. intros [H|[H|H]]; discriminate.
Qed.

End PreviewFacts.

(** ** The API client layer *)

(** Which element of an explicit list a membership hypothesis means. *)
Ltac elems H :=
  repeat match type of H with
         | _ ∈ _ ++ _ => apply elem_of_app in H as [H|H]
         | _ ∈ _ :: _ => apply elem_of_cons in H as [H|H]; [simplify_eq|]
         | _ ∈ [] => by apply elem_of_nil in H
         end.

(** What the shared blocks of the API functions do, as equations. *)
Section AsyncFacts.
Import Js Http Async.
Context {A : Type}.

Lemma tokenOrSession_run (token : option string) (env : Env) (tr : Trace) :
  tokenOrSession token env tr
  = if truthyToken token then (Fulfilled (default "" token), tr)
    else if truthyToken (sessionToken (session env))
    then (Fulfilled (default "" (sessionToken (session env))),
          tr ++ [EvGetServerSession])
    else (Rejected (Error "No authentication token"),
          tr ++ [EvGetServerSession]).
Proof.
  unfold tokenOrSession. destruct (truthyToken token); [reflexivity|].
  unfold mbind, Async_bind, await, getServerSession.
  destruct (truthyToken (sessionToken (session env))); reflexivity.
Qed.

Lemma rejectFromText_run (what : string) (r : Response) (env : Env)
    (tr : Trace) :
  @rejectFromText A what r env tr
  = (Rejected
       match bodyJson r with
       | None => Error (what +:+ ": " +:+ statusLine r
                        +:+ ". Server responded with: " +:+ bodyText r)
       | Some j => errorOr (optChain (Some j) "error")
                     (what +:+ ": " +:+ statusLine r)
       end,
     tr ++ [EvResponseText r; EvJsonParse (bodyText r)]).
Proof.
  unfold rejectFromText, mbind, Async_bind, await, responseText, tryCatch,
    JSON_parse, throw.
  destruct (bodyJson r); by rewrite <- app_assoc.
Qed.

Lemma rejectFromJsonGuarded_run (what : string) (r : Response) (env : Env)
    (tr : Trace) :
  @rejectFromJsonGuarded A what r env tr
  = (Rejected
       match bodyJson r with
       | None => Error (what +:+ ": " +:+ statusLine r)
       | Some j => errorOr (optChain (Some j) "error")
                     (what +:+ ": " +:+ statusLine r)
       end,
     tr ++ [EvResponseJson r]).
Proof.
  unfold rejectFromJsonGuarded, mbind, Async_bind, await, tryCatch,
    responseJson, throw.
  by destruct (bodyJson r).
Qed.

Lemma rejectFromJson_run (fallback : string) (r : Response) (env : Env)
    (tr : Trace) :
  @rejectFromJson A fallback r env tr
  = (Rejected
       match bodyJson r with
       | None => mkExn KSyntaxError (parseErrorMessage env (bodyText r))
       | Some JNull => mkExn KTypeError (typeErrorMessage env "error")
       | Some j => errorOr (getProp j "error") fallback
       end,
     tr ++ [EvResponseJson r]).
Proof.
  unfold rejectFromJson, mbind, Async_bind, await, responseJson, readProp,
    throw.
  destruct (bodyJson r) as [[]|]; reflexivity.
Qed.

Lemma parseOk_run (fn : string) (r : Response) (env : Env) (tr : Trace) :
  parseOk fn r env tr
  = match bodyJson r with
    | Some j => (Fulfilled j, tr ++ [EvResponseJson r])
    | None =>
        (Rejected (Error ("Received OK status (" +:+ pretty (status r)
                          +:+ ") but failed to parse JSON response.")),
         tr ++ [EvResponseJson r;
                EvConsoleError
                  ("Failed to parse successful response JSON ("
                   +:+ fn +:+ "):")])
    end.
Proof.
  unfold parseOk, tryCatch, responseJson, okButUnparseable, mbind,
    Async_bind, await, emit, throw.
  destruct (bodyJson r); [reflexivity|]. by rewrite <- app_assoc.
Qed.

Lemma responseJson_run (r : Response) (env : Env) (tr : Trace) :
  responseJson r env tr
  = (match bodyJson r with
     | Some j => Fulfilled j
     | None => Rejected (mkExn KSyntaxError
                           (parseErrorMessage env (bodyText r)))
     end, tr ++ [EvResponseJson r]).
Proof. reflexivity. Qed.
End AsyncFacts.

(** From here on the shared blocks are used through their equations. *)
#[local] Opaque Async.rejectFromText Async.rejectFromJsonGuarded
  Async.rejectFromJson Async.parseOk Async.responseJson Async.tokenOrSession.

(** Unfolding a resource function down to its shared blocks. *)
Ltac unfold_calls :=
  unfold ApiLayer.invoke, Async.map,
    TasksApi.createTask, TasksApi.getAllTasks, TasksApi.getTask,
    TasksApi.updateTask, TasksApi.deleteTask, TasksApi.getTaskAssignees,
    TasksApi.assignUserToTask, TasksApi.unassignUserFromTask,
    TasksApi.getUserTasks,
    AttachmentsApi.createAttachment, AttachmentsApi.uploadAttachment,
    AttachmentsApi.getTaskAttachments, AttachmentsApi.getAllAttachments,
    AttachmentsApi.getAttachment, AttachmentsApi.updateAttachment,
    AttachmentsApi.deleteAttachment,
    AttachmentsApi.getAttachmentSignedDownloadUrl,
    AttachmentsApi.getSignedUploadUrl, AttachmentsApi.uploadFileToGcs,
    AttachmentsApi.createAttachmentRecord, Auth.userRegister,
    Async.getEnv, Async.fetch, Async.readProp, Async.throw,
    mbind, mret, Async.Async_bind, Async.Async_ret, Async.await,
    Async.resolve in *.

(** One branching point of a call: the token, the network's answer, the
  status. *)
Ltac step_call :=
  match goal with
  | |- context [Js.truthyToken ?t] => destruct (Js.truthyToken t) eqn:?
  | |- context [Http.network ?e ?tr ?req] =>
      destruct (Http.network e tr req) eqn:?
  | |- context [negb (Http.ok ?r)] => destruct (Http.ok r) eqn:?
  | |- context [Http.status ?r =? 204] => destruct (Http.status r =? 204) eqn:?
  end.

(** Every path of a call, one goal each, with the trace spelled out. *)
Ltac run_calls :=
  unfold_calls;
  rewrite ?tokenOrSession_run;
  repeat (simpl;
          rewrite ?tokenOrSession_run, ?rejectFromText_run,
            ?rejectFromJsonGuarded_run,
            ?rejectFromJson_run, ?parseOk_run, ?responseJson_run;
          try step_call).

(** The two outcomes of reading a body: it parses or it does not. *)
Ltac split_body :=
  repeat (match goal with
          | |- context [Http.bodyJson ?r] => destruct (Http.bodyJson r) eqn:?
          end; simpl).

Section ApiFacts.
Import Js Http Async ApiLayer.

Lemma ok_of_status (r : Response) : 200 <= status r <= 299 -> ok r = true.
Proof. unfold ok. intros. apply andb_true_intro. split; lia. Qed.

Lemma append_assoc (a b c : string) : (a +:+ b) +:+ c = a +:+ b +:+ c.
Proof.
  induction a as [|x a IH]; [done|].
  change (String x ((a +:+ b) +:+ c) = String x (a +:+ b +:+ c)).
  by rewrite IH.
Qed.

(** The messages built from the status line show the status code. *)
Lemma includes_statusLine_then (what rest : string) (r : Response) :
  includes (what +:+ ": " +:+ statusLine r +:+ rest) (pretty (status r)).
Proof.
  exists (what +:+ ": "), (" " +:+ statusText r +:+ rest).
  unfold statusLine. by rewrite !append_assoc.
Qed.

Lemma includes_statusLine (what : string) (r : Response) :
  includes (what +:+ ": " +:+ statusLine r) (pretty (status r)).
Proof.
  exists (what +:+ ": "), (" " +:+ statusText r).
  unfold statusLine. by rewrite !append_assoc.
Qed.

(** C6.  A delete request answered 204: [deleteAttachment] resolves to
    its synthetic success message and [deleteTask] to nothing
    ([unassignUserFromTask], the third DELETE, to its own message), and
    in none of them is the body read as JSON. *)
Theorem delete_204_resolves_without_parsing (env : Env)
    (token : option string) (attachmentId taskId userId : string) :
  let a := AttachmentsApi.deleteAttachment attachmentId token env [] in
  let t := TasksApi.deleteTask taskId token env [] in
  let u := TasksApi.unassignUserFromTask taskId userId token env [] in
  (answeredWith 204 a.2 ->
   a.1 = Fulfilled (JObj [("message", JStr "Attachment deleted successfully")])
   /\ noJsonParse a.2)
  /\ (answeredWith 204 t.2 -> t.1 = Fulfilled tt /\ noJsonParse t.2)
  /\ (answeredWith 204 u.2 ->
      u.1 = Fulfilled (JObj [("message", JStr "Task unassigned successfully")])
      /\ noJsonParse u.2).
Proof.
  intros a t u. subst a t u. unfold answeredWith, noJsonParse.
  (split; [|split]); run_calls; split_body;
    intros (req & r' & Hin & Hst); elems Hin;
    try (rewrite ok_of_status in * by lia; discriminate);
    try lia; repeat constructor.
Qed.

Lemma delete_204_witness :
  let env := Samples.envWith None (Samples.alwaysAnswers Samples.noContent) in
  answeredWith 204 (AttachmentsApi.deleteAttachment "a1" (Some "tok") env []).2
  /\ (AttachmentsApi.deleteAttachment "a1" (Some "tok") env []).1
     = Fulfilled (JObj [("message", JStr "Attachment deleted successfully")])
  /\ (TasksApi.deleteTask "t1" (Some "tok") env []).1 = Fulfilled tt.
Proof.
  intros env.
  assert (Ha : answeredWith 204
                 (AttachmentsApi.deleteAttachment "a1" (Some "tok") env []).2).
  { eexists _, Samples.noContent. split; [|reflexivity]. vm_compute. left. }
  assert (Ht : answeredWith 204
                 (TasksApi.deleteTask "t1" (Some "tok") env []).2).
  { eexists _, Samples.noContent. split; [|reflexivity]. vm_compute. left. }
  pose proof (delete_204_resolves_without_parsing env (Some "tok")
                "a1" "t1" "u1") as (HA & HT & _).
  split; [exact Ha|]. split; [exact (proj1 (HA Ha))|exact (proj1 (HT Ht))].
Defined.

(** C9.  [telephone] and [address] never reach the request: two calls
    that agree on name, email and password behave alike, and the one
    request made carries exactly those three fields. *)
Theorem userRegister_ignores_telephone_and_address
    (name email password : string)
    (telephone1 address1 telephone2 address2 : string) (env : Env) :
  Auth.userRegister name telephone1 address1 email password env []
  = Auth.userRegister name telephone2 address2 email password env []
  /\ requestsOf
       (Auth.userRegister name telephone1 address1 email password env []).2
     = [ {| url := match NEXT_PUBLIC_API_URL env with
                   | Some s => s
                   | None => "undefined"
                   end +:+ "/auth/register";
            method := "POST";
            headers := [("Content-Type", "application/json")];
            body := Some (JsonText (JObj [("name", JStr name);
                                          ("email", JStr email);
                                          ("password", JStr password)]));
            credentials := None |} ].
Proof.
  split; [reflexivity|].
  unfold Auth.registerUrl. run_calls; reflexivity.
Qed.

(** A truthy [error] string of a parsed body is the message thrown, in
    every resource function. *)
Lemma error_field_is_the_message (call : ResourceCall)
    (token : option string) (env : Env) (req : Request) (r : Response)
    (j : JSON) (e : string) :
  let out := invoke call token env [] in
  EvFetch req (Responded r) ∈ out.2 -> ok r = false ->
  bodyJson r = Some j -> getProp j "error" = Some (JStr e) -> e <> "" ->
  out.1 = Rejected (Error e).
Proof.
  intros out Hin Hok Hj He Hne. subst out. revert Hin.
  assert (Ht : truthyString e = true) by (by destruct e).
  destruct call; run_calls; split_body; intros Hin; elems Hin;
    try congruence; simplify_eq; unfold errorOr, optChain;
    destruct j; try discriminate He; rewrite He; simpl; by rewrite Ht.
Qed.

(** The functions that read the error body under a [try] still throw an
    [Error] on a body that is not JSON, and its message has the status. *)
Lemma guarded_functions_report_status (call : ResourceCall)
    (token : option string) (env : Env) (req : Request) (r : Response) :
  guardsErrorBody call = true ->
  let out := invoke call token env [] in
  EvFetch req (Responded r) ∈ out.2 -> ok r = false ->
  bodyJson r = None ->
  exists msg : string,
    out.1 = Rejected (Error msg) /\ includes msg (pretty (status r)).
Proof.
  intros Hg out Hin Hok Hj. subst out. revert Hin.
  destruct call; try discriminate Hg; run_calls; split_body; intros Hin;
    elems Hin; try congruence;
    (eexists; split; [reflexivity|]);
    first [apply includes_statusLine_then | apply includes_statusLine].
Qed.

(** The other functions of [attachments.ts] read the error body without
    a [try]: on a body that is not JSON the engine's [SyntaxError] is what
    the caller gets. *)
Lemma unguarded_parse_failure_escapes (call : ResourceCall)
    (token : option string) (env : Env) (req : Request) (r : Response) :
  guardsErrorBody call = false ->
  let out := invoke call token env [] in
  EvFetch req (Responded r) ∈ out.2 -> ok r = false ->
  bodyJson r = None ->
  out.1 = Rejected (mkExn KSyntaxError (parseErrorMessage env (bodyText r))).
Proof.
  intros Hg out Hin Hok Hj. subst out. revert Hin.
  destruct call; try discriminate Hg; run_calls; split_body; intros Hin;
    elems Hin; try reflexivity; congruence.
Qed.

(** C3, at the failing input.  A 502 whose body is an HTML page:
    [createAttachment] rejects with the [SyntaxError] of
    [response.json()], whatever text the engine gives it, and not with an
    [Error] naming the status; [deleteAttachment], on the same answer,
    throws the message with the status. *)
Theorem createAttachment_bad_gateway (data : JSON)
    (engineText : string -> string) :
  let env := {| NEXT_PUBLIC_API_URL := None;
                session := None;
                network := Samples.alwaysAnswers Samples.badGateway;
                parseErrorMessage := engineText;
                typeErrorMessage := engineText;
                encodeURIComponentForm := fun s => s |} in
  (AttachmentsApi.createAttachment data (Some "tok") env []).1
  = Rejected (mkExn KSyntaxError
                (engineText "<html><body>502 Bad Gateway</body></html>"))
  /\ (AttachmentsApi.deleteAttachment "a1" (Some "tok") env []).1
     = Rejected (Error "Failed to delete attachment: 502 Bad Gateway").
Proof. split; vm_compute; reflexivity. Qed.

(** C4, as the code has it.  Called without a token, [deleteTask] throws
    at once, with no session lookup and no request; every other resource
    function looks the session up first and then either makes its one
    request, bearing the session's token, or -- the session having no
    token -- throws without any request. *)
Theorem session_fallback_except_deleteTask (call : ResourceCall)
    (token : option string) (env : Env) :
  truthyToken token = false ->
  let out := invoke call token env [] in
  if isDeleteTask call
  then out = (Rejected (Error "Authentication token is required."), [])
  else if truthyToken (sessionToken (session env))
  then exists (req : Request) (res : FetchResult) (rest : Trace),
      out.2 = EvGetServerSession :: EvFetch req res :: rest
      /\ Forall (fun ev => isFetch ev = false /\ isSessionLookup ev = false)
           rest
      /\ ("Authorization",
          "Bearer " +:+ default "" (sessionToken (session env)))
         ∈ headers req
  else out = (Rejected (Error "No authentication token"),
              [EvGetServerSession]).
Proof.
  intros Htok out. subst out.
  destruct call; cbn [isDeleteTask]; unfold_calls;
    rewrite ?tokenOrSession_run, Htok; try reflexivity;
    (destruct (truthyToken (sessionToken (session env))) eqn:Hs;
     [|reflexivity]);
    run_calls; split_body;
    (do 3 eexists; split; [reflexivity|split; [by repeat constructor|]]);
    simpl; solve [left | right; left].
Qed.

Lemma session_fallback_witness :
  let env := Samples.envWith (Some "session-token")
               (Samples.alwaysAnswers Samples.notFound) in
  truthyToken None = false
  /\ exists (req : Request) (res : FetchResult) (rest : Trace),
      (invoke (GetTask "t1") None env []).2
      = EvGetServerSession :: EvFetch req res :: rest
      /\ Forall (fun ev => isFetch ev = false /\ isSessionLookup ev = false)
           rest
      /\ ("Authorization", "Bearer session-token") ∈ headers req.
Proof.
  intros env. split; [reflexivity|].
  exact (session_fallback_except_deleteTask (GetTask "t1") None env eq_refl).
Defined.

(** C4 as stated fails for [deleteTask]: with a token in the session and
    none passed, it throws without looking the session up. *)
Lemma deleteTask_ignores_session :
  let env := Samples.envWith (Some "session-token")
               (Samples.alwaysAnswers Samples.noContent) in
  truthyToken (sessionToken (session env)) = true
  /\ TasksApi.deleteTask "t1" None env []
     = (Rejected (Error "Authentication token is required."), []).
Proof. split; vm_compute; reflexivity. Qed.

End ApiFacts.

(** ** The attachment component *)

(** Unfolding a handler down to the calls it makes. *)
Ltac unfold_handler :=
  unfold TaskAttachments.handleFileUpload, TaskAttachments.confirmDelete,
    TaskAttachments.toast, TaskAttachments.console_error,
    TaskAttachments.setAttachments,
    TaskAttachments.setIsLoading, TaskAttachments.setError,
    TaskAttachments.setSelectedFile, TaskAttachments.setIsUploading,
    TaskAttachments.setUploadProgress, TaskAttachments.clearFileInput,
    TaskAttachments.setDeleteAlertOpen,
    TaskAttachments.setDeletingAttachmentId,
    TaskAttachments.messageOr,
    mbind, mret, TaskAttachments.Handler_bind, TaskAttachments.Handler_ret,
    TaskAttachments.hawait, TaskAttachments.htryCatch,
    TaskAttachments.htryFinally, TaskAttachments.call,
    TaskAttachments.notAwaited, TaskAttachments.getState,
    TaskAttachments.modify, TaskAttachments.hresolve,
    TaskAttachments.hthrow, Async.emit in *.

(** One branching point of a handler: those of a call, the parsed body,
  a [null] answer, and the two calls taken through their event lemmas. *)
Ltac step_handler events_of_record events_of_reload :=
  match goal with
  | |- context [Http.bodyJson ?r] => destruct (Http.bodyJson r) eqn:?
  | |- context [match ?a with Js.JNull => _ | _ => _ end] =>
      is_var a; destruct a
  | |- context [AttachmentsApi.createAttachmentRecord ?d ?tok ?e ?t] =>
      let evs := fresh "evs" in
      let Hevs := fresh "Hevs" in
      let Hm := fresh "Hposts" in
      destruct (events_of_record d tok e t) as (evs & Hevs & Hm);
      destruct (AttachmentsApi.createAttachmentRecord d tok e t) as [[?|?] ?];
      simpl in Hevs; subst
  | |- context [TaskAttachments.fetchAttachments ?p ?e ?s ?t] =>
      let evs := fresh "evs" in
      let Hevs := fresh "Hevs" in
      let Hm := fresh "Hgets" in
      destruct (events_of_reload p e s t) as (evs & Hevs & Hm);
      destruct (TaskAttachments.fetchAttachments p e s t) as [? [? ?]];
      simpl in Hevs; subst
  end.

Section AttachmentFacts.
Import Js Http Async AttachmentsApi TaskAttachments.

(** Formatting the answer makes no effect. *)
Lemma mapAsync_trace {A B : Type} (f : A -> Async B) (l : list A) :
  (forall x env tr, (f x env tr).2 = tr) ->
  forall env tr, (mapAsync f l env tr).2 = tr.
Proof.
  intros Hf env tr. induction l as [|x l IH]; [reflexivity|].
  simpl. unfold mbind, Async_bind, await.
  specialize (Hf x env tr).
  destruct (f x env tr) as [[y|e] t]; simpl in *; subst; [|reflexivity].
  destruct (mapAsync f l env tr) as [[ys|e] t]; simpl in *; by subst.
Qed.

Lemma formatAttachment_trace (att : JSON) (env : Env) (tr : Trace) :
  (formatAttachment att env tr).2 = tr.
Proof. by destruct att. Qed.

Lemma formatData_trace (data : JSON) (env : Env) (tr : Trace) :
  (formatData data env tr).2 = tr.
Proof.
  destruct data; try reflexivity.
  apply mapAsync_trace, formatAttachment_trace.
Qed.

Lemma onlyMethod_app (m : string) (evs1 evs2 : Trace) :
  onlyMethod m evs1 -> onlyMethod m evs2 -> onlyMethod m (evs1 ++ evs2).
Proof. unfold onlyMethod. intros. by apply Forall_app. Qed.

(** Registering the upload makes POST requests only. *)
Lemma createAttachmentRecord_events (d : RecordData) (token : option string)
    (env : Env) (tr : Trace) :
  exists evs : Trace,
    (createAttachmentRecord d token env tr).2 = tr ++ evs
    /\ onlyMethod "POST" evs.
Proof.
  unfold onlyMethod. run_calls; split_body;
    rewrite <- ?app_assoc; simpl;
    (eexists; split; [reflexivity|]); by repeat constructor.
Qed.

(** Reloading the list makes GET requests only. *)
Lemma fetchAttachments_events (p : Props) (env : Env) (st : UiState)
    (tr : Trace) :
  exists evs : Trace,
    (fetchAttachments p env st tr).2.2 = tr ++ evs /\ onlyMethod "GET" evs.
Proof.
  unfold onlyMethod, fetchAttachments.
  destruct (truthyToken (token p)) eqn:Htok; simpl.
  2: { exists []. by rewrite app_nil_r. }
  unfold_handler. run_calls; split_body;
    repeat match goal with
           | |- context [formatData ?a ?e ?t] =>
               let H := fresh in
               pose proof (formatData_trace a e t) as H;
               destruct (formatData a e t) as [[?|?] ?];
               simpl in H; subst; simpl
           end;
    rewrite <- ?app_assoc; simpl;
    (eexists; split; [reflexivity|]); by repeat constructor.
Qed.

(** C5.  Whenever the storage answers the PUT with a non-OK status, the
    run consists of the signed-URL request, the PUT, the logged error
    and the error toast: the registration call is never made, the
    handler itself settles normally, and the state is the one before the
    click with the uploading flag and progress reset -- the attachment
    list is untouched. *)
Theorem storage_failure_aborts_upload (p : Props) (env : Env)
    (st : UiState) :
  let out := handleFileUpload p env st [] in
  (exists (req : Request) (r : Response),
      EvFetch req (Responded r) ∈ out.2.2
      /\ method req = "PUT" /\ ok r = false) ->
  exists (signedReq putReq : Request) (signed refused : Response),
    out.2.2
    = [EvFetch signedReq (Responded signed);
       EvResponseJson signed;
       EvFetch putReq (Responded refused);
       EvConsoleError "Failed to upload attachment:";
       EvToast ToastError
         "Failed to upload attachment: Failed to upload file to storage."]
    /\ requestsOf out.2.2 = [signedReq; putReq]
    /\ url signedReq = API_URL env +:+ "/attachments/signed-upload-url"
    /\ method signedReq = "POST"
    /\ method putReq = "PUT"
    /\ ok refused = false
    /\ out.1 = Fulfilled tt
    /\ out.2.1
       = mkUiState (attachments st) (isLoading st) (error st)
           (selectedFile st) false 0 (fileInputValue st)
           (deleteAlertOpen st) (deletingAttachmentId st)
           (isPreviewModalOpen st) (previewAttachment st).
Proof.
  intros out. subst out. unfold_handler.
  destruct (selectedFile st) as [file|] eqn:Hfile.
  2: { simpl. intros (req & r & Hin & _). elems Hin. }
  destruct (truthyToken (token p)) eqn:Htok.
  2: { simpl. intros (req & r & Hin & _). elems Hin. }
  cbn [negb].
  unfold getSignedUploadUrl, uploadFileToGcs, Async.getEnv, Async.fetch,
    Async.readProp, Async.throw, mbind, mret, Async.Async_bind,
    Async.Async_ret, Async.await, Async.resolve.
  repeat (simpl;
          rewrite ?tokenOrSession_run, ?rejectFromJson_run,
            ?responseJson_run;
          try first [ step_call
                    | step_handler createAttachmentRecord_events
                        fetchAttachments_events ]).
  all: intros (req & r' & Hin & Hm & Hok); elems Hin; simpl in Hm;
    try discriminate Hm; try congruence.
  all: try match goal with
           | H : onlyMethod _ ?evs, Hin : _ ∈ ?evs |- _ =>
               unfold onlyMethod in H; rewrite Forall_forall in H;
               specialize (H _ Hin); simpl in H; congruence
           end.
  all: do 4 eexists; repeat split; try reflexivity; try assumption;
    by rewrite Hfile.
Qed.

Lemma storage_failure_witness :
  let p := {| taskId := "t1"; token := Some "tok" |} in
  let env := Samples.envWith None Samples.storageRefuses in
  let out := handleFileUpload p env Samples.fileChosen [] in
  (exists (req : Request) (r : Response),
      EvFetch req (Responded r) ∈ out.2.2
      /\ method req = "PUT" /\ ok r = false)
  /\ length (requestsOf out.2.2) = 2%nat
  /\ attachments out.2.1 = attachments Samples.fileChosen.
Proof.
  intros p env out. subst out.
  assert (H : exists (req : Request) (r : Response),
             EvFetch req (Responded r)
             ∈ (handleFileUpload p env Samples.fileChosen []).2.2
             /\ method req = "PUT" /\ ok r = false).
  { subst p env. vm_compute. do 2 eexists.
    split; [right; right; left|split; reflexivity]. }
  split; [exact H|].
  destruct (storage_failure_aborts_upload p env Samples.fileChosen H)
    as (signedReq & putReq & signed & refused & Htr & Hreq & _ & _ & _ & _
        & _ & Hst).
  split; [by rewrite Hreq | by rewrite Hst].
Defined.

(** C7, as the code has it.  With a pending id and a token,
    [confirmDelete] sends the DELETE and, whether that call resolves or
    throws and whatever the reload does, ends with the pending id
    cleared and the prompt closed; without one of them it returns at
    once and changes nothing. *)
Theorem confirmDelete_clears_after_the_call (p : Props) (env : Env)
    (st : UiState) :
  let out := confirmDelete p env st [] in
  if truthyToken (deletingAttachmentId st) && truthyToken (token p)
  then out.1 = Fulfilled tt
       /\ deletingAttachmentId out.2.1 = None
       /\ deleteAlertOpen out.2.1 = false
       /\ exists (req : Request) (res : FetchResult) (rest : Trace),
           out.2.2 = EvFetch req res :: rest
           /\ method req = "DELETE"
           /\ url req = API_URL env +:+ "/attachments/"
                          +:+ default "" (deletingAttachmentId st)
  else out = (Fulfilled tt, (st, [])).
Proof.
  intros out. subst out. unfold_handler.
  destruct (truthyToken (deletingAttachmentId st)) eqn:Hid;
    [|reflexivity].
  destruct (truthyToken (token p)) eqn:Htok; [|reflexivity].
  cbn [negb orb andb].
  unfold deleteAttachment, Async.getEnv, Async.fetch, Async.throw, mbind,
    mret, Async.Async_bind, Async.Async_ret, Async.await, Async.resolve.
  repeat (simpl;
          rewrite ?tokenOrSession_run, ?rejectFromJsonGuarded_run,
            ?parseOk_run;
          try first [ step_call
                    | step_handler createAttachmentRecord_events
                        fetchAttachments_events ]).
  all: try congruence.
  all: repeat split; try reflexivity;
    do 3 eexists; (split; [reflexivity|split; reflexivity]).
Qed.

(** C7 as stated fails when the token is missing: the prompt stays
    open on the same pending id. *)
Lemma confirmDelete_without_token_changes_nothing :
  let p := {| taskId := "t1"; token := None |} in
  let env := Samples.envWith None (Samples.alwaysAnswers Samples.noContent) in
  confirmDelete p env Samples.promptOpen []
  = (Fulfilled tt, (Samples.promptOpen, []))
  /\ deletingAttachmentId Samples.promptOpen = Some "a1"
  /\ deleteAlertOpen Samples.promptOpen = true.
Proof. repeat split; vm_compute; reflexivity. Qed.

(** Both outcomes of the delete call, on a prompt open for [a1]. *)
Example confirmDelete_after_success :
  let p := {| taskId := "t1"; token := Some "tok" |} in
  let env := Samples.envWith None (Samples.alwaysAnswers Samples.noContent) in
  let out := confirmDelete p env Samples.promptOpen [] in
  deletingAttachmentId out.2.1 = None /\ deleteAlertOpen out.2.1 = false
  /\ EvToast ToastSuccess "Attachment deleted successfully." ∈ out.2.2.
Proof. vm_compute. repeat split. right. left. Qed.

Example confirmDelete_after_failure :
  let p := {| taskId := "t1"; token := Some "tok" |} in
  let env := Samples.envWith None (Samples.alwaysAnswers Samples.badGateway) in
  let out := confirmDelete p env Samples.promptOpen [] in
  deletingAttachmentId out.2.1 = None /\ deleteAlertOpen out.2.1 = false
  /\ EvToast ToastError
       "Failed to delete attachment: Failed to delete attachment: 502 Bad Gateway"
     ∈ out.2.2.
Proof. vm_compute. repeat split. do 3 right. left. Qed.

End AttachmentFacts.

(** * Further properties *)

(** ** More on the pagination bar *)
Section PaginationMore.
Import Pagination TaskList.

(** Where an ellipsis can come from. *)
Lemma pushEntry_dots (page tp i : Z) :
  Dots ∈ pushEntry page tp [] i ->
  pushEntry page tp [] i = [Dots]
  /\ (i = page - 3 /\ 1 < page - 3 \/ i = page + 3 /\ page + 3 < tp).
Proof.
  unfold pushEntry. repeat case_match; simpl; intros Hin;
    try (by apply elem_of_nil in Hin);
    try (apply list_elem_of_singleton in Hin; discriminate).
  split; [done|]. lia.
Qed.

Lemma pushEntry_length (page tp i : Z) :
  (length (pushEntry page tp [] i) <= 1)%nat.
Proof. unfold pushEntry. repeat case_match; simpl; lia. Qed.

Lemma occurrences_le_length (e : PageEntry) (w : list PageEntry) :
  (occurrences e w <= length w)%nat.
Proof. apply length_filter. Qed.

(** A stretch of indices with a single source of ellipses has at most one. *)
Lemma occurrences_dots_le_1 (page tp c : Z) (l : list Z) :
  NoDup l ->
  (forall i, i ∈ l -> Dots ∈ pushEntry page tp [] i -> i = c) ->
  (occurrences Dots (l ≫= pushEntry page tp []) <= 1)%nat.
Proof.
  intros Hnd. induction Hnd as [|i l Hni Hnd IH]; intros Hc; [unfold occurrences; cbn; lia|].
  rewrite bind_cons, occurrences_app.
  destruct (decide (Dots ∈ pushEntry page tp [] i)) as [Hd|Hd].
  - assert (i = c) by (apply Hc; [left|done]). subst i.
    rewrite (occurrences_absent Dots (l ≫= _)).
    + pose proof (occurrences_le_length Dots (pushEntry page tp [] c)).
      pose proof (pushEntry_length page tp c). lia.
    + intros Hin. apply list_elem_of_bind in Hin as (j & Hj & Hl).
      assert (j = c) by (apply Hc; [by right|done]). by subst j.
  - rewrite (occurrences_absent Dots (pushEntry _ _ _ _)) by done.
    apply IH. intros j Hj. apply Hc. by right.
Qed.

Lemma occurrences_cons (e x : PageEntry) (w : list PageEntry) :
  occurrences e (x :: w)
  = ((if decide (x = e) then 1 else 0) + occurrences e w)%nat.
Proof.
  unfold occurrences. case_decide.
  - by rewrite filter_cons_True.
  - by rewrite filter_cons_False.
Qed.

Lemma noAdjacentDots_of_at_most_one (w : list PageEntry) :
  (occurrences Dots w <= 1)%nat -> noAdjacentDots w.
Proof.
  induction w as [|e w IH]; intros Hocc k [H1 H2]; [by destruct k|].
  rewrite occurrences_cons in Hocc.
  destruct k as [|k]; simpl in *.
  - simplify_eq. rewrite decide_True in Hocc by done.
    assert (0 < occurrences Dots w)%nat; [|lia].
    apply occurrences_pos_elem. by eapply list_elem_of_lookup_2.
  - apply (IH ltac:(lia) k). done.
Qed.

Lemma noAdjacentDots_around_page (a b : list PageEntry) (n : Z) :
  noAdjacentDots a -> noAdjacentDots b ->
  noAdjacentDots (a ++ PageNum n :: b).
Proof.
  intros Ha Hb k [H1 H2].
  destruct (decide (S k < length a)%nat) as [Hlt|Hge].
  - rewrite !lookup_app_l in * by lia. by apply (Ha k).
  - destruct (decide (k < length a)%nat) as [Hlt'|Hge'].
    + assert (S k = length a) as Heq by lia.
      rewrite Heq, list_lookup_middle in H2 by done. discriminate.
    + destruct (decide (k = length a)) as [->|Hne].
      * rewrite list_lookup_middle in H1 by done. discriminate.
      * rewrite !lookup_app_r in * by lia.
        destruct (k - length a)%nat as [|m] eqn:Hm; [lia|].
        replace (S k - length a)%nat with (S (S m)) in H2 by lia.
        simpl in *. by apply (Hb m).
Qed.

(** The array built by the loop never holds two ellipses side by side,
    whatever the numbers are. *)
Lemma pageNumbers_no_adjacent (page pageSize total : Z) :
  noAdjacentDots (pageNumbers page pageSize total).
Proof.
  rewrite pageNumbers_bind. set (tp := ceilDiv total pageSize).
  destruct (decide (1 <= page <= tp)) as [Hin|Hout].
  - assert (Hs : seqZ 1 tp
                 = seqZ 1 (page - 1) ++ page :: seqZ (page + 1) (tp - page)).
    { replace tp with ((page - 1) + (1 + (tp - page))) at 1 by lia.
      rewrite seqZ_app by lia. f_equal.
      rewrite seqZ_cons by lia. f_equal; [lia|]. f_equal; lia. }
    rewrite Hs, bind_app, bind_cons.
    rewrite (pushEntry_shown page tp page) by lia. simpl.
    apply noAdjacentDots_around_page;
      apply noAdjacentDots_of_at_most_one.
    + apply (occurrences_dots_le_1 _ _ (page - 3)); [apply NoDup_seqZ|].
      intros i Hi Hd. apply elem_of_seqZ in Hi.
      apply pushEntry_dots in Hd as [_ Hd]. lia.
    + apply (occurrences_dots_le_1 _ _ (page + 3)); [apply NoDup_seqZ|].
      intros i Hi Hd. apply elem_of_seqZ in Hi.
      apply pushEntry_dots in Hd as [_ Hd]. lia.
  - apply noAdjacentDots_of_at_most_one.
    apply (occurrences_dots_le_1 _ _ (if decide (page < 1) then page + 3
                                      else page - 3));
      [apply NoDup_seqZ|].
    intros i Hi Hd. apply elem_of_seqZ in Hi.
    apply pushEntry_dots in Hd as [_ Hd]. case_decide; lia.
Qed.

Lemma noAdjacentDots_tail (e : PageEntry) (w : list PageEntry) :
  noAdjacentDots (e :: w) -> noAdjacentDots w.
Proof. intros H k Hk. by apply (H (S k)). Qed.

(** On such an array the callback of [map] returns an item for every
    entry. *)
Lemma mapEntries_keeps_all (page : Z) (l : list PageEntry) :
  forall (b : bool) (idx : nat),
    noAdjacentDots l -> (b = true -> head l <> Some Dots) ->
    Forall is_Some (mapEntries page b idx l)
    /\ shown <$> omap id (mapEntries page b idx l) = l.
Proof.
  induction l as [|e l IH]; intros b idx Hna Hhd; [done|].
  pose proof (noAdjacentDots_tail _ _ Hna) as Hna'.
  destruct e as [i|]; simpl.
  - destruct (IH false (S idx) Hna' ltac:(done)) as [IH1 IH2].
    split; [by constructor|]. cbn. f_equal. exact IH2.
  - destruct b; [by destruct Hhd|].
    destruct (IH true (S idx) Hna') as [IH1 IH2].
    { intros _ Hd. apply (Hna 0%nat). split; [done|].
      simpl. by rewrite <- head_lookup. }
    split; [by constructor|]. cbn. f_equal. exact IH2.
Qed.


(** What is on screen is the array the loop built. *)
Lemma pageWindow_unfiltered (page pageSize total : Z) :
  pageWindow page pageSize total = pageNumbers page pageSize total.
Proof.
  by apply mapEntries_keeps_all; [apply pageNumbers_no_adjacent|].
Qed.

(** The indices at which the loop pushes anything. *)
Lemma pushEntry_nonempty (page tp i : Z) :
  pushEntry page tp [] i <> [] ->
  i ∈ [1; tp; page - 3; page - 2; page - 1; page; page + 1; page + 2;
       page + 3].
Proof.
  unfold pushEntry. repeat case_match; try done; intros _;
    assert (i = 1 \/ i = tp \/ i = page - 3 \/ i = page - 2 \/ i = page - 1
            \/ i = page \/ i = page + 1 \/ i = page + 2 \/ i = page + 3)
      as Hi by lia;
    set_solver.
Qed.

Lemma bind_pushEntry_length (page tp : Z) (l : list Z) :
  (length (l ≫= pushEntry page tp [])
   <= length (filter (fun i => pushEntry page tp [] i <> []) l))%nat.
Proof.
  induction l as [|i l IH]; [done|].
  rewrite bind_cons, length_app.
  pose proof (pushEntry_length page tp i).
  destruct (decide (pushEntry page tp [] i = [])) as [He|Hne].
  - rewrite He, filter_cons_False by (intros H'; by apply H'). simpl. lia.
  - rewrite filter_cons_True by done. simpl. lia.
Qed.


Lemma pagesOf_app (a b : list PageEntry) :
  pagesOf (a ++ b) = pagesOf a ++ pagesOf b.
Proof. unfold pagesOf. apply omap_app. Qed.

Lemma pagesOf_bind_sublist (page tp : Z) (l : list Z) :
  pagesOf (l ≫= pushEntry page tp []) `sublist_of` l.
Proof.
  induction l as [|i l IH]; [done|].
  rewrite bind_cons, pagesOf_app.
  unfold pushEntry at 1. repeat case_match; simpl;
    first [by apply sublist_skip | by apply sublist_cons].
Qed.


(** X4.  For a valid input an ellipsis is on screen exactly when some
    existing page is not. *)
Theorem ellipsis_iff_some_page_hidden (page pageSize total : Z) :
  validInput page pageSize total ->
  let w := pageWindow page pageSize total in
  Dots ∈ w
  <-> exists i : Z, 1 <= i <= ceilDiv total pageSize /\ PageNum i ∉ w.
Proof.
  intros (Hps & Htot & Hpage) w. subst w.
  rewrite pageWindow_unfiltered.
  rewrite pageNumbers_bind. set (tp := ceilDiv total pageSize) in *.
  split.
  - intros Hd. apply list_elem_of_bind in Hd as (i & Hd & Hi).
    apply elem_of_seqZ in Hi. exists i. split; [lia|].
    intros Hn. apply list_elem_of_bind in Hn as (j & Hn & _).
    pose proof (pushEntry_num _ _ _ _ Hn) as [Hij _]. subst j.
    apply pushEntry_dots in Hd as [Hd _]. rewrite Hd in Hn.
    apply list_elem_of_singleton in Hn. discriminate.
  - intros (i & Hi & Hn).
    assert (Hhidden : ~ (i = 1 \/ i = tp \/ page - 2 <= i <= page + 2)).
    { intros Hc. apply Hn, list_elem_of_bind. exists i.
      split; [rewrite pushEntry_shown by done; left|].
      apply elem_of_seqZ. lia. }
    apply list_elem_of_bind.
    destruct (decide (i < page - 2)) as [Hlo|Hhi].
    + exists (page - 3). split; [|apply elem_of_seqZ; lia].
      unfold pushEntry. repeat case_match; try lia; left.
    + exists (page + 3). split; [|apply elem_of_seqZ; lia].
      unfold pushEntry. repeat case_match; try lia; left.
Qed.

Lemma ellipsis_iff_witness :
  validInput 5 10 200
  /\ Dots ∈ pageWindow 5 10 200
  /\ exists i : Z, 1 <= i <= ceilDiv 200 10 /\ PageNum i ∉ pageWindow 5 10 200.
Proof.
  assert (Hv : validInput 5 10 200) by (vm_compute; intuition discriminate).
  assert (Hd : Dots ∈ pageWindow 5 10 200) by (vm_compute; right; left).
  split; [exact Hv|]. split; [exact Hd|].
  exact (proj1 (ellipsis_iff_some_page_hidden 5 10 200 Hv) Hd).
Defined.

(** X5.  For a valid input: the next link is marked disabled exactly on
    the last page and otherwise leads to an existing page; the previous
    link is marked disabled exactly on page 1 and always leads to an
    existing page, the one before unless there is none. *)
Theorem previous_and_next_stay_in_range (page pageSize total : Z) :
  validInput page pageSize total ->
  let last := ceilDiv total pageSize in
  (nextDisabled page pageSize total = true <-> page = last)
  /\ (nextDisabled page pageSize total = false ->
      1 <= nextTarget page <= last)
  /\ (previousDisabled page = true <-> page = 1)
  /\ 1 <= previousTarget page <= last
  /\ previousTarget page = (if decide (page = 1) then 1 else page - 1).
Proof.
  intros (Hps & Htot & Hpage) last. subst last.
  pose proof (ceilDiv_bounds total pageSize ltac:(lia)) as [Hlo Hup].
  generalize dependent (ceilDiv total pageSize). intros last Hpage Hlo Hup.
  assert (Hnext : nextDisabled page pageSize total = true <-> page = last).
  { unfold nextDisabled. rewrite Z.leb_le. split; [|intros ->; lia].
    intros Hle. nia. }
  split; [exact Hnext|]. split.
  { intros Hf. unfold nextTarget.
    destruct (decide (page = last)) as [He|Hne]; [|lia].
    apply Hnext in He. congruence. }
  unfold previousDisabled, previousTarget.
  split; [apply Z.eqb_eq|]. split; [lia|]. case_decide; lia.
Qed.

Lemma previous_and_next_witness :
  validInput 20 10 200
  /\ nextDisabled 20 10 200 = true
  /\ previousTarget 20 = 19.
Proof.
  assert (Hv : validInput 20 10 200) by (vm_compute; intuition discriminate).
  pose proof (previous_and_next_stay_in_range 20 10 200 Hv)
    as (Hn & _ & _ & _ & Hp).
  split; [exact Hv|]. split; [apply Hn; reflexivity|exact Hp].
Defined.

End PaginationMore.

(** ** The rows and the states of the task list *)
Section TaskListFacts.
Import Js Pagination TaskList.

(** X6.  The assignee cell.  For a list: one avatar for each of the first
    three assignees, in order; "+N" exactly when there are more than
    three, N being how many are left out; "Unassigned" exactly when the
    list is empty.  For [null] the cell is empty: no avatar and no
    "Unassigned" either. *)
Theorem assignees_cell_contents (l : list Assignee) :
  assigneesCell None = []
  /\ (exists rest : list AssigneeItem,
        assigneesCell (Some l) = (avatarOf <$> take 3 l) ++ rest
        /\ Forall (fun item => item = UnassignedItem
                               \/ exists n, item = OverflowItem n) rest)
  /\ (UnassignedItem ∈ assigneesCell (Some l) <-> l = [])
  /\ (forall n : Z,
        OverflowItem n ∈ assigneesCell (Some l)
        <-> (3 < length l)%nat
            /\ Z.of_nat (length (take 3 l)) + n = Z.of_nat (length l)).
Proof.
  split; [reflexivity|].
  assert (Hav : forall item, item ∈ avatarOf <$> take 3 l ->
                  item <> UnassignedItem
                  /\ forall n, item <> OverflowItem n).
  { intros item Hi. apply list_elem_of_fmap in Hi as (a & -> & _). done. }
  unfold assigneesCell. split; [|split].
  - eexists. split; [reflexivity|].
    repeat case_match; simpl;
      repeat (apply Forall_cons; split; [eauto|]); apply Forall_nil_2.
  - rewrite !elem_of_app. split.
    + intros [Hi|[Hi|Hi]].
      * by apply Hav in Hi as [? _].
      * case_match; [apply list_elem_of_singleton in Hi; discriminate
                    |by apply elem_of_nil in Hi].
      * case_match eqn:Hz; [|by apply elem_of_nil in Hi].
        apply Z.eqb_eq in Hz. destruct l; [done|simpl in Hz; lia].
    + intros ->. right. right. simpl. left.
  - intros n. rewrite !elem_of_app, length_take. split.
    + intros [Hi|[Hi|Hi]].
      * apply Hav in Hi as [_ Hi]. by destruct (Hi n).
      * case_match eqn:Hz; [|by apply elem_of_nil in Hi].
        apply Z.ltb_lt in Hz.
        apply list_elem_of_singleton in Hi. simplify_eq. lia.
      * case_match; [apply list_elem_of_singleton in Hi; discriminate
                    |by apply elem_of_nil in Hi].
    + intros [Hlen Hn]. right. left.
      rewrite (proj2 (Z.ltb_lt 3 (Z.of_nat (length l)))) by lia.
      apply list_elem_of_singleton. f_equal. lia.
Qed.


End TaskListFacts.

(** ** The preview modal and the download link *)
Section PreviewModalFacts.
Import Js Http Async TaskAttachments PreviewModal ApiLayerCases.

Lemma API_URL_truthy (env : Env) : truthyString (API_URL env) = true.
Proof.
  unfold API_URL. destruct (NEXT_PUBLIC_API_URL env) as [s|]; [|done].
  by destruct (truthyString s) eqn:Hs.
Qed.

Lemma truthyString_append (s t : string) :
  truthyString s = true -> truthyString (s +:+ t) = true.
Proof. by destruct s. Qed.

Lemma image_is_nothing_else (t : string) :
  String.prefix "image/" t = true ->
  String.prefix "video/" t = false
  /\ String.prefix "application/pdf" t = false.
Proof.
  intros [rest ->]%prefix_startsWith. split; vm_compute; reflexivity.
Qed.

Lemma video_is_not_pdf (t : string) :
  String.prefix "video/" t = true ->
  String.prefix "application/pdf" t = false.
Proof. intros [rest ->]%prefix_startsWith. vm_compute. reflexivity. Qed.

(** X8.  What the user sees after clicking preview on an eligible
    attachment: nothing at all when the file name is empty (though the
    modal is open); otherwise an image for [image/...], a video for
    [video/...], the PDF frame for exactly [application/pdf], and the
    "not available" text for the types that merely start with
    [application/pdf]. *)
Theorem eligible_preview_view (a : Attachment) (env : Env) (st : UiState) :
  canPreviewType (Some (file_type a)) = true ->
  let st' := (handlePreviewClick a env st []).2.1 in
  isPreviewModalOpen st' = true
  /\ if decide (file_name a = "") then renderedModal env st' = None
     else exists v : ModalView,
         renderedModal env st' = Some v
         /\ ((exists src alt, v = ImageView src alt)
             <-> startsWith (file_type a) "image/")
         /\ ((exists src, v = VideoView src)
             <-> startsWith (file_type a) "video/")
         /\ ((exists src title, v = PdfView src title)
             <-> file_type a = "application/pdf")
         /\ (v = NotAvailableView (file_type a)
             <-> startsWith (file_type a) "application/pdf"
                 /\ file_type a <> "application/pdf").
Proof.
  intros Hcan st'. subst st'. unfold handlePreviewClick. rewrite Hcan.
  split; [reflexivity|].
  pose proof (proj1 (canPreviewType_prefixes _) Hcan) as Hpre.
  rewrite <- !prefix_startsWith in *.
  assert (Hft : truthyString (file_type a) = true).
  { unfold canPreviewType in Hcan. simpl in Hcan.
    by destruct (truthyString (file_type a)). }
  unfold renderedModal, AttachmentPreviewModal. simpl.
  unfold AttachmentsApi.getAttachmentPreviewUrl.
  rewrite truthyString_append by apply API_URL_truthy.
  rewrite Hft. simpl.
  case_decide as Hname.
  { by rewrite Hname. }
  assert (Hn : truthyString (file_name a) = true)
    by (by destruct (file_name a)).
  rewrite Hn. simpl. eexists. split; [reflexivity|].
  rewrite <- !prefix_startsWith. clear Hcan Hft Hn.
  destruct (String.prefix "image/" (file_type a)) eqn:Hi.
  { destruct (image_is_nothing_else _ Hi) as [Hv Hp].
    assert (file_type a <> "application/pdf") as Hne
        by (intros E; rewrite E in Hp; discriminate).
    rewrite Hv, Hp. naive_solver. }
  destruct (String.prefix "video/" (file_type a)) eqn:Hv.
  { pose proof (video_is_not_pdf _ Hv) as Hp.
    assert (file_type a <> "application/pdf") as Hne
        by (intros E; rewrite E in Hp; discriminate).
    rewrite Hp. naive_solver. }
  destruct Hpre as [?|[?|Hp]]; try discriminate. rewrite Hp.
  destruct (String.eqb (file_type a) "application/pdf") eqn:He.
  - apply String.eqb_eq in He. naive_solver.
  - apply String.eqb_neq in He. naive_solver.
Qed.

Lemma eligible_preview_witness :
  canPreviewType (Some (file_type Samples.pdfWithCharset)) = true
  /\ renderedModal
       (Samples.envWith None (Samples.alwaysAnswers Samples.noContent))
       (handlePreviewClick Samples.pdfWithCharset
          (Samples.envWith None (Samples.alwaysAnswers Samples.noContent))
          Samples.idle []).2.1
     = Some (NotAvailableView "application/pdf; charset=binary").
Proof.
  split; [reflexivity|].
  pose proof (eligible_preview_view Samples.pdfWithCharset
                (Samples.envWith None (Samples.alwaysAnswers Samples.noContent))
                Samples.idle eq_refl) as [_ H].
  case_decide as Hname; [discriminate Hname|].
  destruct H as (v & Hv & _ & _ & _ & Hna). rewrite Hv. f_equal.
  apply Hna. split; [|discriminate].
  exists "; charset=binary". reflexivity.
Defined.

End PreviewModalFacts.

(** ** More of the API client layer *)

(** One shared block of the goal, replaced through its equation. *)
Ltac run_block :=
  match goal with
  | |- context [Async.tokenOrSession ?t ?e ?tr] =>
      rewrite (tokenOrSession_run t e tr)
  | |- context [@Async.rejectFromText ?A ?w ?r ?e ?tr] =>
      rewrite (@rejectFromText_run A w r e tr)
  | |- context [@Async.rejectFromJsonGuarded ?A ?w ?r ?e ?tr] =>
      rewrite (@rejectFromJsonGuarded_run A w r e tr)
  | |- context [@Async.rejectFromJson ?A ?w ?r ?e ?tr] =>
      rewrite (@rejectFromJson_run A w r e tr)
  | |- context [Async.parseOk ?f ?r ?e ?tr] =>
      rewrite (parseOk_run f r e tr)
  | |- context [Async.responseJson ?r ?e ?tr] =>
      rewrite (responseJson_run r e tr)
  end.

(** Every path of a call, as [run_calls] gives them. *)
Ltac run_paths :=
  unfold_calls;
  repeat (simpl; repeat run_block; try step_call).

Section ApiMore.
Import Js Http Async ApiLayer ApiLayerCases.

(** X9.  A successful answer whose body parses: every resource function
    resolves to the parsed body ([deleteTask] to nothing,
    [getAttachmentSignedDownloadUrl] to the body's [url]), reading the
    body once; only a [null] body makes the signed-URL function throw,
    on reading [url] of it.  The 204 answers of the three DELETE
    functions are the case left out. *)
Theorem success_returns_parsed_body (call : ResourceCall)
    (token : option string) (env : Env) (req : Request) (r : Response)
    (j : JSON) :
  let out := invoke call token env [] in
  EvFetch req (Responded r) ∈ out.2 -> ok r = true ->
  bodyJson r = Some j -> handles204 call && (status r =? 204) = false ->
  out.1 = match call, j with
          | GetAttachmentSignedDownloadUrl _, JNull =>
              Rejected (mkExn KTypeError (typeErrorMessage env "url"))
          | _, _ => Fulfilled (valueFor call j)
          end
  /\ filter (fun ev => isBodyRead ev = true) out.2 = [EvResponseJson r].
Proof.
  intros out Hin Hok Hj H204. subst out. revert Hin.
  destruct call; simpl in H204; run_paths; split_body; intros Hin;
    elems Hin; try congruence; simplify_eq;
    try (destruct j; split; reflexivity).
Qed.

Lemma success_witness :
  let env := Samples.envWith None (Samples.alwaysAnswers MoreSamples.recordCreated) in
  (invoke (UpdateTask "t1" (JObj [])) (Some "tok") env []).1
  = Fulfilled (Some (JObj [("message", JStr "created")])).
Proof.
  intros env.
  refine (proj1 (success_returns_parsed_body (UpdateTask "t1" (JObj []))
                   (Some "tok") env _ MoreSamples.recordCreated _ _ eq_refl
                   eq_refl eq_refl)).
  vm_compute. left.
Defined.

(** X10.  A successful answer whose body does not parse -- an empty 204
    sent to anything but the three DELETE functions is one: the
    functions that parse under a [try] throw the "Received OK status"
    error naming the status, the others let the [SyntaxError] through.
    No resource function resolves on such an answer. *)
Theorem ok_but_unparseable_rejects (call : ResourceCall)
    (token : option string) (env : Env) (req : Request) (r : Response) :
  let out := invoke call token env [] in
  EvFetch req (Responded r) ∈ out.2 -> ok r = true ->
  bodyJson r = None -> handles204 call && (status r =? 204) = false ->
  out.1 = Rejected
            (if guardsErrorBody call
             then Error ("Received OK status (" +:+ pretty (status r)
                         +:+ ") but failed to parse JSON response.")
             else mkExn KSyntaxError (parseErrorMessage env (bodyText r))).
Proof.
  intros out Hin Hok Hj H204. subst out. revert Hin.
  destruct call; simpl in H204; run_paths; split_body; intros Hin;
    elems Hin; try congruence; simplify_eq; reflexivity.
Qed.

Lemma ok_but_unparseable_witness :
  let env := Samples.envWith None (Samples.alwaysAnswers Samples.noContent) in
  (invoke (UpdateTask "t1" (JObj [])) (Some "tok") env []).1
  = Rejected (Error "Received OK status (204) but failed to parse JSON response.").
Proof.
  intros env.
  refine (ok_but_unparseable_rejects (UpdateTask "t1" (JObj []))
            (Some "tok") env _ Samples.noContent _ eq_refl eq_refl eq_refl).
  vm_compute. left.
Defined.

(** X11.  When the request itself fails (the network is down), every
    resource function rejects with the very exception of [fetch]: no
    body is read, nothing is retried. *)
Theorem network_failure_propagates (call : ResourceCall)
    (token : option string) (env : Env) (req : Request) (e : Exn) :
  let out := invoke call token env [] in
  EvFetch req (Failed e) ∈ out.2 ->
  out.1 = Rejected e
  /\ requestsOf out.2 = [req]
  /\ Forall (fun ev => isBodyRead ev = false) out.2.
Proof.
  intros out Hin. subst out. revert Hin.
  destruct call; run_paths; split_body; intros Hin;
    elems Hin; try congruence; simplify_eq;
    (split; [reflexivity|split; [reflexivity|by repeat constructor]]).
Qed.

Lemma network_failure_witness :
  let env := Samples.envWith None MoreSamples.offline in
  (invoke GetAllAttachments (Some "tok") env []).1
  = Rejected (mkExn KTypeError "Failed to fetch").
Proof.
  intros env.
  refine (proj1 (network_failure_propagates GetAllAttachments (Some "tok")
                   env _ (mkExn KTypeError "Failed to fetch") _)).
  vm_compute. left.
Defined.

(** X12.  Whatever token is passed and whatever the network does, a
    resource function makes at most one request; that request goes to a
    URL under the API base, carries the bearer header of the token in
    use and sets no credentials mode.  It makes none exactly when there
    is no token to use. *)
Theorem at_most_one_authorized_request (call : ResourceCall)
    (token : option string) (env : Env) :
  let out := invoke call token env [] in
  (length (requestsOf out.2) <= 1)%nat
  /\ Forall (fun req =>
               startsWith (url req) (API_URL env)
               /\ ("Authorization", "Bearer " +:+ tokenUsed token env)
                  ∈ headers req
               /\ credentials req = None)
       (requestsOf out.2)
  /\ (requestsOf out.2 = []
      <-> truthyToken token = false
          /\ (isDeleteTask call = true
              \/ truthyToken (sessionToken (session env)) = false)).
Proof.
  intros out. subst out. unfold tokenUsed.
  destruct call; run_paths; split_body;
    (split; [simpl; lia|split]);
    try (apply Forall_nil_2);
    try (apply Forall_cons; split; [|apply Forall_nil_2];
         split; [eexists; reflexivity|split; [|reflexivity]];
         simpl; solve [left | right; left]);
    simpl; split; try discriminate; try (intros [? [?|?]]; congruence);
    auto.
Qed.

Lemma formHas_app (k : string) (a b : FormData) :
  formHas k (a ++ b) = formHas k a || formHas k b.
Proof. unfold formHas. apply existsb_app. Qed.

(** X13.  [uploadAttachment] sends the caller's form with a [taskId]
    entry guaranteed: the caller's entries come first and unchanged, at
    most one entry is added, and a [taskId] the caller put in is the one
    that stays.  The request names no content type (the browser supplies
    the multipart boundary). *)
Theorem upload_form_has_taskId (taskId : string) (formData : FormData)
    (token : option string) (env : Env) :
  truthyToken token = true ->
  exists (req : Request) (sent : FormData),
    requestsOf (AttachmentsApi.uploadAttachment taskId formData token env []).2
    = [req]
    /\ body req = Some (FormBody sent)
    /\ formHas "taskId" sent = true
    /\ formData `prefix_of` sent
    /\ (formHas "taskId" formData = true -> sent = formData)
    /\ AttachmentsApi.withTaskId taskId sent = sent
    /\ "Content-Type" ∉ (fst <$> headers req).
Proof.
  intros Htok.
  assert (Hsent : formHas "taskId" (AttachmentsApi.withTaskId taskId formData)
                  = true).
  { unfold AttachmentsApi.withTaskId.
    destruct (formHas "taskId" formData) eqn:Hhas; simpl; [done|].
    rewrite formHas_app, Hhas. reflexivity. }
  exists {| url := API_URL env +:+ "/attachments";
            method := "POST";
            headers := bearerHeaders (default "" token);
            body := Some (FormBody (AttachmentsApi.withTaskId taskId formData));
            credentials := None |},
         (AttachmentsApi.withTaskId taskId formData).
  split.
  { run_calls; split_body; congruence. }
  split; [reflexivity|]. split; [exact Hsent|]. split.
  { unfold AttachmentsApi.withTaskId.
    destruct (formHas "taskId" formData); simpl; [done|].
    by apply prefix_app_r. }
  split.
  { intros Hhas. unfold AttachmentsApi.withTaskId. by rewrite Hhas. }
  split.
  { unfold AttachmentsApi.withTaskId at 1. by rewrite Hsent. }
  simpl. intros Hin. elems Hin.
Qed.

Lemma upload_form_witness :
  let env := Samples.envWith None (Samples.alwaysAnswers Samples.badGateway) in
  truthyToken (Some "tok") = true
  /\ exists (req : Request),
      requestsOf (AttachmentsApi.uploadAttachment "t1"
                    [("file", FormFile Samples.report)] (Some "tok") env []).2
      = [req]
      /\ body req = Some (FormBody [("file", FormFile Samples.report);
                                    ("taskId", FormString "t1")]).
Proof.
  intros env. split; [reflexivity|].
  destruct (upload_form_has_taskId "t1" [("file", FormFile Samples.report)]
              (Some "tok") env eq_refl)
    as (req & sent & Hreq & Hbody & _).
  exists req. split; [exact Hreq|].
  vm_compute in Hreq. injection Hreq as <-. reflexivity.
Defined.

(** X14.  Registration answered with a non-OK status: the helper throws
    the fixed message ["Failed to register"] and never reads the body,
    so whatever reason the server gave is lost. *)
Theorem userRegister_failure_is_opaque
    (name telephone address email password : string) (env : Env)
    (req : Request) (r : Response) :
  let out := Auth.userRegister name telephone address email password env [] in
  EvFetch req (Responded r) ∈ out.2 -> ok r = false ->
  out = (Rejected (Error "Failed to register"), [EvFetch req (Responded r)]).
Proof.
  intros out Hin Hok. subst out. revert Hin.
  run_calls; split_body; intros Hin; elems Hin; try reflexivity;
    congruence.
Qed.

Lemma userRegister_failure_witness :
  let env := Samples.envWith None (Samples.alwaysAnswers Samples.notFound) in
  (Auth.userRegister "Ann" "555" "Main St" "ann@example.test" "pw" env []).1
  = Rejected (Error "Failed to register").
Proof.
  intros env.
  refine (f_equal fst
            (userRegister_failure_is_opaque "Ann" "555" "Main St"
               "ann@example.test" "pw" env _ Samples.notFound _ eq_refl)).
  vm_compute. left.
Defined.

(** X16.  A resource function resolves only after the server answered
    its one request with an OK status, and then only if the body parsed
    -- or, for the three DELETE functions, if the status was 204. *)
Theorem resolves_only_after_ok (call : ResourceCall)
    (token : option string) (env : Env) (v : Value) :
  let out := invoke call token env [] in
  out.1 = Fulfilled v ->
  exists (req : Request) (r : Response),
    requestsOf out.2 = [req]
    /\ EvFetch req (Responded r) ∈ out.2
    /\ ok r = true
    /\ (bodyJson r <> None \/ (handles204 call = true /\ status r = 204)).
Proof.
  intros out Hv. subst out. revert Hv.
  destruct call; run_paths; split_body;
    try match goal with j : JSON |- _ => destruct j; simpl end;
    intros Hv; try discriminate Hv;
    (do 2 eexists; split; [reflexivity|split; [|split; [eassumption|]]]);
    try (simpl; solve [left | right; left]);
    first [ left; congruence | right; split; [reflexivity|lia] ].
Qed.

Lemma resolves_only_witness :
  let env := Samples.envWith None (Samples.alwaysAnswers Samples.noContent) in
  (invoke (DeleteAttachment "a1") (Some "tok") env []).1
  = Fulfilled (Some (JObj [("message", JStr "Attachment deleted successfully")]))
  /\ exists (req : Request),
      requestsOf (invoke (DeleteAttachment "a1") (Some "tok") env []).2 = [req].
Proof.
  intros env. split; [reflexivity|].
  destruct (resolves_only_after_ok (DeleteAttachment "a1") (Some "tok") env
              _ eq_refl) as (req & r & Hreq & _).
  by exists req.
Defined.

Lemma beforeAt_prefix (s : string) :
  s = Login.beforeAt s \/ startsWith s (Login.beforeAt s +:+ "@").
Proof.
  induction s as [|c s IH]; [by left|]. simpl.
  destruct (Ascii.eqb c (Ascii.ascii_of_nat 64)) eqn:Hc.
  - apply Ascii.eqb_eq in Hc. subst c. right. by exists s.
  - destruct IH as [IH|[rest IH]].
    + left. by rewrite <- IH.
    + right. exists rest.
      change (String c s = String c ((Login.beforeAt s +:+ "@") +:+ rest)).
      by rewrite <- IH.
Qed.

Lemma beforeAt_no_at (s : string) :
  Ascii.ascii_of_nat 64 ∉ String.list_ascii_of_string (Login.beforeAt s).
Proof.
  induction s as [|c s IH]; simpl; [apply not_elem_of_nil|].
  destruct (Ascii.eqb c (Ascii.ascii_of_nat 64)) eqn:Hc; simpl;
    [apply not_elem_of_nil|].
  apply Ascii.eqb_neq in Hc. apply not_elem_of_cons. split; [congruence|done].
Qed.

(** X15.  Logging in.  When the server's answer carries no usable
    [name], the user object is named after the e-mail address: the part
    before its first ["@"] (all of it when it has none).  The address is
    passed through as typed, and the one request sent is a POST to
    [/auth/login] with the credentials mode [include] and no
    [Authorization] header. *)
Theorem login_name_falls_back_to_email (email password : string) (env : Env)
    (req : Request) (r : Response) (fields : list (string * JSON)) :
  let out := Login.userLogIn email password env [] in
  EvFetch req (Responded r) ∈ out.2 -> ok r = true ->
  bodyJson r = Some (JObj fields) -> truthy (lookupField "name" fields) = false ->
  exists local : string,
    out.1 = Fulfilled {| Login.id := lookupField "userId" fields;
                         Login.name := JStr local;
                         Login.email := email;
                         Login.token := lookupField "token" fields |}
    /\ (email = local \/ startsWith email (local +:+ "@"))
    /\ (Ascii.ascii_of_nat 64 ∉ String.list_ascii_of_string local)
    /\ requestsOf out.2 = [req]
    /\ url req = API_URL env +:+ "/auth/login"
    /\ method req = "POST"
    /\ credentials req = Some "include"
    /\ "Authorization" ∉ (fst <$> headers req).
Proof.
  intros out Hin Hok Hj Hname. subst out.
  exists (Login.beforeAt email). revert Hin.
  unfold Login.userLogIn. run_calls; split_body;
    try match goal with j : JSON |- _ => destruct j; simpl end;
    intros Hin; elems Hin; try congruence; simplify_eq; simpl;
    rewrite ?Hname.
  split; [reflexivity|]. split; [apply beforeAt_prefix|].
  split; [apply beforeAt_no_at|]. repeat split.
  simpl. intros Hin. elems Hin.
Qed.

Lemma login_witness :
  let r := {| status := 200; statusText := "OK"; bodyText := "{}";
              bodyJson := Some (JObj [("userId", JStr "u1");
                                      ("token", JStr "jwt")]) |} in
  let env := Samples.envWith None (Samples.alwaysAnswers r) in
  exists u : Login.LoggedIn,
    (Login.userLogIn "ann@example.test" "pw" env []).1 = Fulfilled u
    /\ Login.name u = JStr "ann".
Proof.
  intros r env.
  destruct (login_name_falls_back_to_email "ann@example.test" "pw" env
              {| url := "https://api.example.test/api/v1/auth/login";
                 method := "POST";
                 headers := [("Content-Type", "application/json")];
                 body := Some (JsonText (JObj [("email", JStr "ann@example.test");
                                               ("password", JStr "pw")]));
                 credentials := Some "include" |}
              r [("userId", JStr "u1"); ("token", JStr "jwt")])
    as (local & Hout & Hlocal & Hno & _); try reflexivity.
  { vm_compute. left. }
  eexists. split; [exact Hout|]. simpl.
  destruct Hlocal as [<-|[rest Hrest]].
  - exfalso. apply Hno. vm_compute. do 3 right. left.
  - f_equal. clear Hout.
    destruct local as [|c1 [|c2 [|c3 [|c4 l]]]];
      try (injection Hrest as -> -> -> ?; exfalso; apply Hno; simpl;
           rewrite ?elem_of_cons; tauto);
      try (injection Hrest as ? ?; discriminate);
      try discriminate.
    cbn in Hrest. by injection Hrest as -> -> ->.
Defined.

End ApiMore.

(** ** More of the attachment component *)
Section HandlersMore.
Import Js Http Async AttachmentsApi TaskAttachments PreviewModal ApiLayerCases.

Lemma lookupField_setField_ne (k k' : string) (v : Value)
    (fields : list (string * JSON)) :
  k' <> k -> lookupField k' (setField k v fields) = lookupField k' fields.
Proof.
  intros Hne. induction fields as [|[k0 old] rest IH]; simpl.
  - destruct v; simpl; [|done].
    by rewrite (proj2 (String.eqb_neq k' k)).
  - destruct (String.eqb k k0) eqn:Hk.
    + apply String.eqb_eq in Hk. subst k0.
      rewrite (proj2 (String.eqb_neq k' k)) by done.
      destruct v; simpl; [|done].
      by rewrite (proj2 (String.eqb_neq k' k)).
    + simpl. by rewrite IH.
Qed.

Lemma lookupField_absent (k : string) (fields : list (string * JSON)) :
  k ∉ fields.*1 -> lookupField k fields = None.
Proof.
  induction fields as [|[k0 old] rest IH]; simpl; [done|].
  intros [Hne Hrest]%not_elem_of_cons.
  rewrite (proj2 (String.eqb_neq k k0)) by done. by apply IH.
Qed.

Lemma lookupField_setField_eq (k : string) (v : Value)
    (fields : list (string * JSON)) :
  NoDup fields.*1 -> lookupField k (setField k v fields) = v.
Proof.
  induction fields as [|[k0 old] rest IH]; simpl; intros Hnd.
  - destruct v; simpl; [|done]. by rewrite String.eqb_refl.
  - apply NoDup_cons in Hnd as [Hk0 Hnd].
    destruct (String.eqb k k0) eqn:Hk.
    + apply String.eqb_eq in Hk. subst k0.
      destruct v; simpl; [by rewrite String.eqb_refl|].
      by apply lookupField_absent.
    + simpl. rewrite Hk. by apply IH.
Qed.

(** X17.  Formatting one attachment object of the server's list (its
    keys being distinct): the result reads [created_at] as the object's
    own [created_at] when that is truthy and as its [uploaded_at]
    otherwise; every other property reads as before; no effect is
    made. *)
Theorem formatAttachment_stamp (fields : list (string * JSON)) (env : Env)
    (tr : Trace) :
  NoDup fields.*1 ->
  exists fields' : list (string * JSON),
    formatAttachment (JObj fields) env tr = (Fulfilled (JObj fields'), tr)
    /\ lookupField "created_at" fields'
       = (if truthy (lookupField "created_at" fields)
          then lookupField "created_at" fields
          else lookupField "uploaded_at" fields)
    /\ forall k : string,
        k <> "created_at" -> lookupField k fields' = lookupField k fields.
Proof.
  intros Hnd.
  exists (setField "created_at"
            (if truthy (lookupField "created_at" fields)
             then lookupField "created_at" fields
             else lookupField "uploaded_at" fields) fields).
  split; [reflexivity|]. split.
  - by apply lookupField_setField_eq.
  - intros k Hk. by apply lookupField_setField_ne.
Qed.

Lemma formatAttachment_witness :
  let att := [("attachment_id", JStr "a2"); ("created_at", JNull);
              ("uploaded_at", JStr "2025-02-02")] in
  NoDup att.*1
  /\ exists fields' : list (string * JSON),
      (formatAttachment (JObj att)
         (Samples.envWith None MoreSamples.offline) []).1
      = Fulfilled (JObj fields')
      /\ lookupField "created_at" fields' = Some (JStr "2025-02-02").
Proof.
  intros att.
  assert (Hnd : NoDup att.*1).
  { subst att. simpl. repeat (apply NoDup_cons; split;
      [rewrite ?elem_of_cons, elem_of_nil; intros H; naive_solver|]).
    apply NoDup_nil_2. }
  split; [exact Hnd|].
  destruct (formatAttachment_stamp att
              (Samples.envWith None MoreSamples.offline) [] Hnd)
    as (fields' & Hrun & Hstamp & _).
  exists fields'. split; [by rewrite Hrun|]. exact Hstamp.
Defined.

Lemma mapAsync_formatAttachment_objects (items : list JSON) (env : Env)
    (tr : Trace) (l : list JSON) (tr' : Trace) :
  mapAsync formatAttachment items env tr = (Fulfilled l, tr') ->
  Forall (fun a => exists fields, a = JObj fields) l
  /\ length l = length items.
Proof.
  revert l. induction items as [|x items IH]; intros l; simpl.
  - intros [= <- <-]. by split.
  - unfold mbind, Async_bind, await.
    pose proof (formatAttachment_trace x env tr) as Hx.
    destruct (formatAttachment x env tr) as [[y|e] t] eqn:Hy;
      simpl in Hx; subst t; [|done].
    destruct (mapAsync formatAttachment items env tr) as [[ys|e] t] eqn:Hys;
      [|done].
    intros [= <- <-]. destruct (IH ys eq_refl) as [Hobj Hlen].
    split; [|simpl; by rewrite Hlen].
    apply Forall_cons. split; [|done].
    destruct x; simpl in Hy; try discriminate Hy;
      injection Hy as <-; by eexists.
Qed.

Lemma formatData_objects (data : JSON) (env : Env) (tr : Trace)
    (l : list JSON) (tr' : Trace) :
  formatData data env tr = (Fulfilled l, tr') ->
  Forall (fun a => exists fields, a = JObj fields) l.
Proof.
  destruct data; try discriminate.
  intros H. by apply mapAsync_formatAttachment_objects in H as [H _].
Qed.

(** What a reload does when there is a token: one GET, the loading flag
    down at the end, the fields of the upload and delete dialogs as they
    were; either the list is replaced by formatted objects and the error
    cleared, or the list stays, the error is set and the error toast
    shown. *)
Lemma fetchAttachments_frame (p : Props) (env : Env) (st : UiState)
    (tr : Trace) :
  truthyToken (token p) = true ->
  exists (evs : Trace) (atts : list JSON) (err : option string),
    fetchAttachments p env st tr
    = (Fulfilled tt,
       (mkUiState atts false err (selectedFile st) (isUploading st)
          (uploadProgress st) (fileInputValue st) (deleteAlertOpen st)
          (deletingAttachmentId st) (isPreviewModalOpen st)
          (previewAttachment st),
        tr ++ evs))
    /\ methodsOf evs = ["GET"]
    /\ Forall (fun ev => isSuccessToast ev = false) evs
    /\ ((err = None
         /\ Forall (fun a => exists fields, a = JObj fields) atts
         /\ Forall (fun ev => isToast ev = false) evs)
        \/ (atts = attachments st
            /\ (exists msg : string, err = Some msg)
            /\ filter (fun ev => isToast ev = true) evs
               = [EvToast ToastError "Failed to load attachments."])).
Proof.
  intros Htok. unfold fetchAttachments. rewrite Htok. simpl.
  unfold_handler. run_calls; try discriminate Htok; split_body;
    repeat match goal with
           | |- context [formatData ?a ?e ?t] =>
               let H := fresh "Htr" in
               let Hf := fresh "Hfmt" in
               pose proof (formatData_trace a e t) as H;
               pose proof (formatData_objects a e t) as Hf;
               destruct (formatData a e t) as [[?|?] ?];
               simpl in H; subst; simpl;
               try specialize (Hf _ _ eq_refl)
           end;
    rewrite <- ?app_assoc; simpl;
    (do 3 eexists; split; [reflexivity|]);
    (split; [reflexivity|]);
    (split; [by repeat constructor|]);
    first [ left; split; [reflexivity|split; [assumption|by repeat constructor]]
          | right; split; [reflexivity|split; [by eexists|reflexivity]] ].
Qed.

Lemma methodsOf_app (a b : Trace) :
  methodsOf (a ++ b) = methodsOf a ++ methodsOf b.
Proof. unfold methodsOf, requestsOf. by rewrite omap_app, fmap_app. Qed.

Lemma methodsOf_fetch (req : Request) (res : FetchResult) (tr : Trace) :
  methodsOf (EvFetch req res :: tr) = method req :: methodsOf tr.
Proof. reflexivity. Qed.

Lemma methodsOf_skip (ev : Event) (tr : Trace) :
  isFetch ev = false -> methodsOf (ev :: tr) = methodsOf tr.
Proof. by destruct ev. Qed.

(** The methods of a trace that is spelled out up to named parts. *)
Ltac count_methods :=
  repeat first [ rewrite methodsOf_fetch
               | rewrite methodsOf_skip by reflexivity
               | rewrite methodsOf_app ].

(** Registering the upload with a token: one POST, no toast. *)
Lemma createAttachmentRecord_frame (d : RecordData) (token : option string)
    (env : Env) (tr : Trace) :
  truthyToken token = true ->
  exists (evs : Trace) (c : Completion JSON),
    createAttachmentRecord d token env tr = (c, tr ++ evs)
    /\ methodsOf evs = ["POST"]
    /\ Forall (fun ev => isToast ev = false) evs.
Proof.
  intros Htok. run_calls; try discriminate Htok; split_body;
    rewrite <- ?app_assoc; simpl;
    (do 2 eexists; split; [reflexivity|]);
    (split; [reflexivity|by repeat constructor]).
Qed.


(** One step of a handler run with a token: the token test, the two
  calls taken through their frame lemmas, then the branching points of a
  call and of a parsed body. *)
Ltac step_with_token Htok :=
  first
    [ rewrite Htok
    | match goal with
      | |- context [AttachmentsApi.createAttachmentRecord ?d ?tok ?e ?t] =>
          let evs := fresh "evs" in
          let c := fresh "c" in
          let Heq := fresh "Heq" in
          let Hm := fresh "Hposts" in
          let Hnt := fresh "Hquiet" in
          destruct (createAttachmentRecord_frame d tok e t Htok)
            as (evs & c & Heq & Hm & Hnt);
          rewrite Heq; clear Heq; destruct c
      | |- context [TaskAttachments.fetchAttachments ?p ?e ?s ?t] =>
          let evs := fresh "evs" in
          let atts := fresh "atts" in
          let err := fresh "err" in
          let Heq := fresh "Heq" in
          let Hm := fresh "Hgets" in
          let Hns := fresh "Hnosuccess" in
          let Hcase := fresh "Hcase" in
          destruct (fetchAttachments_frame p e s t Htok)
            as (evs & atts & err & Heq & Hm & Hns & Hcase);
          rewrite Heq; clear Heq Hcase
      | |- context [Http.network ?e ?tr ?req] =>
          destruct (Http.network e tr req) eqn:?
      | |- context [negb (Http.ok ?r)] => destruct (Http.ok r) eqn:?
      | |- context [Http.status ?r =? 204] =>
          destruct (Http.status r =? 204) eqn:?
      | |- context [Http.bodyJson ?r] => destruct (Http.bodyJson r) eqn:?
      | |- context [match ?a with Js.JNull => _ | _ => _ end] =>
          is_var a; destruct a
      end ].

(** Every path of a handler that has its token. *)
Ltac run_handler Htok :=
  unfold_handler;
  unfold AttachmentsApi.getSignedUploadUrl, AttachmentsApi.uploadFileToGcs,
    AttachmentsApi.deleteAttachment,
    AttachmentsApi.getAttachmentSignedDownloadUrl,
    Async.getEnv, Async.fetch, Async.readProp, Async.throw, mbind, mret,
    Async.Async_bind, Async.Async_ret, Async.await, Async.resolve;
  repeat (simpl;
          rewrite ?tokenOrSession_run, ?rejectFromJson_run,
            ?rejectFromJsonGuarded_run, ?parseOk_run, ?responseJson_run;
          try step_with_token Htok).

(** A toast cannot be among events that hold none. *)
Ltac no_such_toast :=
  match goal with
  | H : Forall _ ?evs, Hin : _ ∈ ?evs |- _ =>
      rewrite Forall_forall in H; specialize (H _ Hin); simpl in H;
      discriminate H
  end.

(** Finding an event in a trace that is spelled out. *)
Ltac find_event :=
  lazymatch goal with
  | |- _ ∈ _ :: _ =>
      first [ apply list_elem_of_here
            | apply list_elem_of_further; find_event ]
  | |- _ ∈ _ ++ _ =>
      first [ apply elem_of_app; left; find_event
            | apply elem_of_app; right; find_event ]
  end.

(** X19.  Submitting the upload form never throws.  Without a selected
    file or without a token it only shows ["Please select a file to
    upload."] and changes nothing.  Otherwise it starts with the
    signed-URL request for the file, ends with the uploading flag down
    and the progress at 0 whatever happened in between, and has told the
    user the outcome: a success toast, or an error toast that starts
    with ["Failed to upload attachment: "]. *)
Theorem handleFileUpload_always_settles (p : Props) (env : Env)
    (st : UiState) :
  let out := handleFileUpload p env st [] in
  out.1 = Fulfilled tt
  /\ match selectedFile st with
     | Some file =>
         if truthyToken (token p)
         then isUploading out.2.1 = false
              /\ uploadProgress out.2.1 = 0
              /\ (exists (req : Request) (res : FetchResult) (rest : Trace),
                     out.2.2 = EvFetch req res :: rest
                     /\ url req = API_URL env
                                    +:+ "/attachments/signed-upload-url"
                     /\ body req
                        = Some (JsonText
                                  (JObj [("taskId", JStr (taskId p));
                                         ("fileName", JStr (name file));
                                         ("fileType", JStr (type file))])))
              /\ ((exists msg : string, EvToast ToastSuccess msg ∈ out.2.2)
                  \/ (exists msg : string,
                         EvToast ToastError
                           ("Failed to upload attachment: " +:+ msg)
                         ∈ out.2.2))
         else out.2 = (st, [EvToast ToastError
                              "Please select a file to upload."])
     | None => out.2 = (st, [EvToast ToastError
                               "Please select a file to upload."])
     end.
Proof.
  intros out. subst out. unfold handleFileUpload.
  destruct (selectedFile st) as [file|] eqn:Hfile.
  2: { unfold_handler. simpl. by rewrite Hfile. }
  destruct (truthyToken (token p)) eqn:Htok.
  2: { unfold_handler. simpl. by rewrite Hfile. }
  unfold_handler. simpl. rewrite Hfile. run_handler Htok.
  all: split; [reflexivity|]; split; [reflexivity|]; split; [reflexivity|].
  all: split; [do 3 eexists; split; [reflexivity|split; reflexivity]|].
  all: first [ left; eexists; find_event | right; eexists; find_event ].
Qed.

(** X20.  The success toast of an upload is shown only after all three
    steps went through: the run then consists of the signed-URL POST,
    the PUT to the storage, the POST that registers the file and the GET
    of the reload, in this order; the toast names the file, the
    selection is cleared and the file input emptied. *)
Theorem upload_success_shape (p : Props) (env : Env) (st : UiState)
    (msg : string) :
  let out := handleFileUpload p env st [] in
  EvToast ToastSuccess msg ∈ out.2.2 ->
  exists file : File,
    selectedFile st = Some file
    /\ msg = "Attachment " +:+ dquote +:+ name file +:+ dquote
               +:+ " uploaded successfully."
    /\ methodsOf out.2.2 = ["POST"; "PUT"; "POST"; "GET"]
    /\ selectedFile out.2.1 = None
    /\ fileInputValue out.2.1
       = match fileInputValue st with Some _ => Some "" | None => None end
    /\ isUploading out.2.1 = false
    /\ isLoading out.2.1 = false.
Proof.
  intros out. subst out. unfold handleFileUpload.
  destruct (selectedFile st) as [file|] eqn:Hfile.
  2: { unfold_handler. simpl. rewrite Hfile. simpl. intros Hin. elems Hin. }
  destruct (truthyToken (token p)) eqn:Htok.
  2: { unfold_handler. simpl. rewrite Hfile. simpl. intros Hin. elems Hin. }
  unfold_handler. simpl. rewrite Hfile. run_handler Htok.
  all: intros Hin; elems Hin; try no_such_toast.
  all: exists file; split; [reflexivity|]; split; [reflexivity|].
  all: split; [|repeat split; by rewrite ?Hfile].
  all: count_methods; rewrite Hposts, Hgets; reflexivity.
Qed.

Lemma upload_success_witness :
  let p := {| taskId := "t1"; token := Some "tok" |} in
  let env := Samples.envWith None MoreSamples.allGoesWell in
  let out := handleFileUpload p env Samples.fileChosen [] in
  EvToast ToastSuccess
    ("Attachment " +:+ dquote +:+ "report.pdf" +:+ dquote
     +:+ " uploaded successfully.") ∈ out.2.2
  /\ methodsOf out.2.2 = ["POST"; "PUT"; "POST"; "GET"]
  /\ selectedFile out.2.1 = None.
Proof.
  intros p env out. subst out.
  assert (Hin : EvToast ToastSuccess
                  ("Attachment " +:+ dquote +:+ "report.pdf" +:+ dquote
                   +:+ " uploaded successfully.")
                ∈ (handleFileUpload p env Samples.fileChosen []).2.2).
  { subst p env. vm_compute. do 5 right. left. }
  split; [exact Hin|].
  destruct (upload_success_shape p env Samples.fileChosen _ Hin)
    as (file & _ & _ & Hm & Hsel & _).
  by split.
Defined.



(** X22.  Asking for a download never throws and never touches the
    component's state.  Either it hands out the link -- the [url]
    property of the parsed answer turned into a string (the text
    ["undefined"] when the answer has none), with the file name as
    given -- and no toast is shown, or it hands out nothing and shows
    one error toast that starts with ["Failed to get download link: "].
    At most one request is made. *)
Theorem handleDownload_outcome (p : Props) (env : Env) (st : UiState)
    (attachmentId fileName : string) :
  let out := handleDownload p attachmentId fileName env st [] in
  out.2.1 = st
  /\ (length (requestsOf out.2.2) <= 1)%nat
  /\ ((exists (req : Request) (r : Response) (j : JSON),
          out.1 = Fulfilled (Some (toStringValue (getProp j "url"), fileName))
          /\ EvFetch req (Responded r) ∈ out.2.2
          /\ ok r = true /\ bodyJson r = Some j
          /\ Forall (fun ev => isToast ev = false) out.2.2)
      \/ (out.1 = Fulfilled None
          /\ exists msg : string,
              filter (fun ev => isToast ev = true) out.2.2
              = [EvToast ToastError
                   ("Failed to get download link: " +:+ msg)])).
Proof.
  intros out. subst out. unfold handleDownload.
  unfold_handler.
  unfold AttachmentsApi.getAttachmentSignedDownloadUrl,
    Async.getEnv, Async.fetch, Async.readProp, Async.throw, mbind, mret,
    Async.Async_bind, Async.Async_ret, Async.await, Async.resolve.
  repeat (simpl;
          rewrite ?tokenOrSession_run, ?rejectFromJson_run,
            ?responseJson_run;
          try first [ step_call
                    | match goal with
                      | |- context [Http.bodyJson ?r] =>
                          destruct (Http.bodyJson r) eqn:?
                      | |- context [match ?a with Js.JNull => _ | _ => _ end] =>
                          is_var a; destruct a
                      end ]).
  all: split; [reflexivity|]; split; [simpl; lia|].
  all: first
         [ right; split; [reflexivity|]; eexists; reflexivity
         | left;
           match goal with
           | Hr : Http.bodyJson ?r = Some ?j |- _ => eexists; exists r, j
           end;
           split; [reflexivity|];
           split; [find_event|];
           split; [assumption|]; split; [assumption|];
           by repeat constructor ].
Qed.

(** X23.  Clicking delete on an attachment and then confirming, with a
    token: the DELETE goes to that attachment's URL and the prompt ends
    closed with no pending id -- unless the id is the empty string, in
    which case confirming does nothing and the prompt stays open. *)
Theorem delete_click_then_confirm (p : Props) (env : Env) (st : UiState)
    (attachmentId : string) :
  truthyToken (token p) = true ->
  let out := (handleDeleteClick attachmentId;; confirmDelete p) env st [] in
  out.1 = Fulfilled tt
  /\ if truthyString attachmentId
     then deleteAlertOpen out.2.1 = false
          /\ deletingAttachmentId out.2.1 = None
          /\ exists (req : Request) (res : FetchResult) (rest : Trace),
              out.2.2 = EvFetch req res :: rest
              /\ method req = "DELETE"
              /\ url req = API_URL env +:+ "/attachments/" +:+ attachmentId
     else deleteAlertOpen out.2.1 = true
          /\ deletingAttachmentId out.2.1 = Some ""
          /\ out.2.2 = [].
Proof.
  intros Htok out. subst out. unfold handleDeleteClick, confirmDelete.
  unfold_handler. simpl.
  destruct (truthyString attachmentId) eqn:Hid; simpl.
  2: { destruct attachmentId; [|discriminate Hid]. by repeat split. }
  rewrite Htok. run_handler Htok.
  all: split; [reflexivity|]; split; [reflexivity|]; split; [reflexivity|].
  all: do 3 eexists; split; [reflexivity|split; reflexivity].
Qed.

Lemma delete_click_witness :
  let p := {| taskId := "t1"; token := Some "tok" |} in
  let env := Samples.envWith None (Samples.alwaysAnswers Samples.noContent) in
  let out := (handleDeleteClick "a7";; confirmDelete p) env Samples.idle [] in
  truthyToken (token p) = true
  /\ deleteAlertOpen out.2.1 = false
  /\ deletingAttachmentId out.2.1 = None.
Proof.
  intros p env out. subst out. split; [reflexivity|].
  destruct (delete_click_then_confirm p env Samples.idle "a7" eq_refl)
    as (_ & Hopen & Hid & _).
  by split.
Defined.

End HandlersMore.

(** ** More of the project navigation *)
Section ProjectNavMore.
Import ProjectNav.

Lemma keepFirst_unchanged (l : list Project) :
  forall seen : gset string,
    NoDup (project_id <$> l) ->
    (forall p, p ∈ l -> project_id p ∉ seen) ->
    keepFirst seen l = l.
Proof.
  induction l as [|p l IH]; intros seen Hnd Hseen; simpl; [done|].
  rewrite fmap_cons in Hnd. apply NoDup_cons in Hnd as [Hp Hnd].
  rewrite decide_False by (apply Hseen; left).
  f_equal. apply IH; [done|].
  intros q Hq. rewrite elem_of_union, elem_of_singleton.
  intros [Heq|Hin].
  - apply Hp. rewrite <- Heq. by apply list_elem_of_fmap_2.
  - by apply (Hseen q); [right|].
Qed.

(** X24.  The duplicate filter of [ProjectNav] changes nothing on a
    list whose ids are already distinct -- and only on such a list --
    so filtering twice is filtering once; it never lengthens the list;
    and the component renders nothing exactly for a missing or empty
    list. *)
Theorem uniqueItems_idempotent (items : list Project) :
  uniqueItems (uniqueItems items) = uniqueItems items
  /\ (NoDup (project_id <$> items) <-> uniqueItems items = items)
  /\ (length (uniqueItems items) <= length items)%nat
  /\ (ProjectNav (Some items) = None <-> items = []).
Proof.
  assert (Hfix : forall l, NoDup (project_id <$> l) -> uniqueItems l = l).
  { intros l Hnd. rewrite uniqueItems_keepFirst.
    apply keepFirst_unchanged; [done|]. intros p _. apply not_elem_of_empty. }
  split.
  { apply Hfix. rewrite uniqueItems_keepFirst. apply keepFirst_NoDup. }
  split.
  { split; [apply Hfix|]. intros <-. rewrite uniqueItems_keepFirst.
    apply keepFirst_NoDup. }
  split.
  { rewrite uniqueItems_keepFirst. apply sublist_length, keepFirst_sublist. }
  destruct items; simpl; split; done.
Qed.

End ProjectNavMore.
